(** * PyRacantha: dependency discovery and requirements.txt reconciliation

    A shallow embedding of the part of [src/extension.ts] that scans a
    project for Python imports and merges them into [requirements.txt]
    ([updateRequirementsTxt], [collectImportedPackages],
    [isValidPackageName], [getProjectConfig]) and of the loops of
    [createPythonProjectStructure], together with the manifest reader and
    the scan of the earlier variant of [updateRequirementsTxt], which
    parses [name==version] lines.

    JavaScript strings are sequences of UTF-16 code units; they are modelled
    as [list N], one number per code unit, so that [\s], [.], [$] and the
    default [Array.prototype.sort] order mean here what they mean there. *)

From Stdlib Require Import List NArith Bool Ascii String Lia.
From Stdlib Require Import Sorting.Sorted Permutation.
Import ListNotations.

Set Implicit Arguments.

(* ================================================================== *)
(** ** JavaScript strings *)

Definition jsstring := list N.

(** A literal: each character of an ASCII literal is its own code unit. *)
Definition js (s : string) : jsstring :=
  map N_of_ascii (list_ascii_of_string s).

Definition LF : N := 10.
Definition CR : N := 13.
Definition HASH : N := 35.
Definition DQUOTE : N := 34.
Definition SQUOTE : N := 39.
Definition COMMA : N := 44.
Definition DOT : N := 46.
Definition MINUS : N := 45.
Definition UNDERSCORE : N := 95.
Definition EQUALS : N := 61.

(** [===] on strings. *)
Fixpoint jseqb (a b : jsstring) : bool :=
  match a, b with
  | [], [] => true
  | x :: a', y :: b' => N.eqb x y && jseqb a' b'
  | _, _ => false
  end.

(** [Array.prototype.includes] on an array of strings. *)
Definition includes (arr : list jsstring) (x : jsstring) : bool :=
  existsb (jseqb x) arr.

(** Truthiness of a string: the empty string is the only falsy one. *)
Definition truthy (s : jsstring) : bool :=
  match s with [] => false | _ :: _ => true end.

(** [s.split(sep)] for a one-code-unit separator.  The result is never
    empty: [''.split(sep)] is [['']]. *)
Fixpoint split (sep : N) (s : jsstring) : list jsstring :=
  match s with
  | [] => [[]]
  | c :: t =>
      if N.eqb c sep then [] :: split sep t
      else match split sep t with
           | l :: ls => (c :: l) :: ls
           | [] => [[c]]
           end
  end.

(** [arr.join(sep)] for a one-code-unit separator. *)
Fixpoint join (sep : N) (arr : list jsstring) : jsstring :=
  match arr with
  | [] => []
  | [l] => l
  | l :: ls => l ++ sep :: join sep ls
  end.

(** [s.endsWith(suffix)]. *)
Definition endsWith (s suffix : jsstring) : bool :=
  jseqb (skipn (List.length s - List.length suffix) s) suffix.

(** The insertion-ordered [Set<string>]: [add] appends a new element and
    leaves the set alone when the element is already there. *)
Definition setAdd (x : jsstring) (s : list jsstring) : list jsstring :=
  if includes s x then s else s ++ [x].

(** [new Set(arr)] followed by spreading: first occurrences, in order. *)
Definition setOf (arr : list jsstring) : list jsstring :=
  fold_left (fun s x => setAdd x s) arr [].

(** The default comparison of [Array.prototype.sort]: code unit by code
    unit, a proper prefix first. *)
Fixpoint jsleb (a b : jsstring) : bool :=
  match a, b with
  | [], _ => true
  | _ :: _, [] => false
  | x :: a', y :: b' =>
      if N.ltb x y then true
      else if N.eqb x y then jsleb a' b'
      else false
  end.

Fixpoint insertSorted (x : jsstring) (l : list jsstring) : list jsstring :=
  match l with
  | [] => [x]
  | y :: l' => if jsleb x y then x :: y :: l' else y :: insertSorted x l'
  end.

(** [arr.sort()] with no comparator. *)
Definition sort (arr : list jsstring) : list jsstring :=
  fold_right insertSorted [] arr.

(* ================================================================== *)
(** ** Character classes of the regular expressions *)

Definition inRange (lo hi c : N) : bool := N.leb lo c && N.leb c hi.

(** [\s]: WhiteSpace and LineTerminator of ECMAScript. *)
Definition isSpace (c : N) : bool :=
  inRange 9 13 c || N.eqb c 32 || N.eqb c 160 || N.eqb c 5760
  || inRange 8192 8202 c || N.eqb c 8232 || N.eqb c 8233
  || N.eqb c 8239 || N.eqb c 8287 || N.eqb c 12288 || N.eqb c 65279.

(** What [.] does not match without the [s] flag, and where [$] stops with
    the [m] flag. *)
Definition isLineTerminator (c : N) : bool :=
  N.eqb c LF || N.eqb c CR || N.eqb c 8232 || N.eqb c 8233.

Definition isAlnum (c : N) : bool :=
  inRange 97 122 c || inRange 65 90 c || inRange 48 57 c.

(** [[a-zA-Z0-9_\-]]. *)
Definition isNameChar (c : N) : bool :=
  isAlnum c || N.eqb c UNDERSCORE || N.eqb c MINUS.

(** [[0-9a-zA-Z.\-_]]. *)
Definition isVersionChar (c : N) : bool :=
  isAlnum c || N.eqb c DOT || N.eqb c MINUS || N.eqb c UNDERSCORE.

(** [[^\s,]]. *)
Definition isTargetChar (c : N) : bool :=
  negb (isSpace c) && negb (N.eqb c COMMA).

Fixpoint takeWhile (p : N -> bool) (s : jsstring) : jsstring :=
  match s with
  | c :: t => if p c then c :: takeWhile p t else []
  | [] => []
  end.

Fixpoint dropWhile (p : N -> bool) (s : jsstring) : jsstring :=
  match s with
  | c :: t => if p c then dropWhile p t else s
  | [] => []
  end.

(** The rest of [s] after the literal [lit], when [s] starts with it. *)
Fixpoint stripPrefix (lit s : jsstring) : option jsstring :=
  match lit, s with
  | [], _ => Some s
  | x :: lit', c :: t => if N.eqb x c then stripPrefix lit' t else None
  | _ :: _, [] => None
  end.

(** [\s+]: at least one space, then all that follow. *)
Definition spaces1 (s : jsstring) : option jsstring :=
  match s with
  | c :: t => if isSpace c then Some (dropWhile isSpace t) else None
  | [] => None
  end.

(** [([^\s,]+)]: the longest non-empty run, and what follows it. *)
Definition target1 (s : jsstring) : option (jsstring * jsstring) :=
  match takeWhile isTargetChar s with
  | [] => None
  | g => Some (g, dropWhile isTargetChar s)
  end.

(** [line.match(/^\s*import\s+([^\s,]+)/)], giving [match[1]]. *)
Definition matchImport (line : jsstring) : option jsstring :=
  match stripPrefix (js "import") (dropWhile isSpace line) with
  | None => None
  | Some r =>
      match spaces1 r with
      | None => None
      | Some r' =>
          match target1 r' with
          | None => None
          | Some (g, _) => Some g
          end
      end
  end.

(** [line.match(/^\s*from\s+([^\s,]+)\s+import\s+/)], giving [match[1]]. *)
Definition matchFrom (line : jsstring) : option jsstring :=
  match stripPrefix (js "from") (dropWhile isSpace line) with
  | None => None
  | Some r =>
      match spaces1 r with
      | None => None
      | Some r' =>
          match target1 r' with
          | None => None
          | Some (g, r2) =>
              match spaces1 r2 with
              | None => None
              | Some r3 =>
                  match stripPrefix (js "import") r3 with
                  | None => None
                  | Some r4 =>
                      match spaces1 r4 with
                      | None => None
                      | Some _ => Some g
                      end
                  end
              end
          end
      end
  end.

(** The two branches of the [if]/[else if] in the line loop: the captured
    dotted path of whichever pattern matches, the plain import first. *)
Definition matchedPath (line : jsstring) : option jsstring :=
  match matchImport line with
  | Some g => Some g
  | None => matchFrom line
  end.

(** [match[1].split('.')[0]]. *)
Definition firstSegment (path : jsstring) : jsstring :=
  hd [] (split DOT path).

(* ================================================================== *)
(** ** Content normalisation *)

(** Whether [s] starts with three [q]. *)
Definition opens (q : N) (s : jsstring) : bool :=
  match s with
  | a :: b :: c :: _ => N.eqb a q && N.eqb b q && N.eqb c q
  | _ => false
  end.

(** How many code units come before the first [qqq] in [s]. *)
Fixpoint findClose (q : N) (s : jsstring) : option nat :=
  match s with
  | [] => None
  | _ :: t =>
      if opens q s then Some 0
      else match findClose q t with
           | Some n => Some (S n)
           | None => None
           end
  end.

(** [s.replace(/qqq.*?qqq/gs, '')]: left to right, an opening [qqq] is
    paired with the nearest [qqq] after it and the whole block is dropped;
    an opening with no closing stays.  [skip] counts the code units of the
    current block still to drop. *)
Fixpoint stripBlocks (q : N) (skip : nat) (s : jsstring) : jsstring :=
  match s with
  | [] => []
  | c :: t =>
      match skip with
      | S k => stripBlocks q k t
      | O =>
          match (if opens q s then findClose q (skipn 3 s) else None) with
          | Some n => stripBlocks q (n + 5) t
          | None => c :: stripBlocks q 0 t
          end
      end
  end.

(** [s.replace(/#.*$/gm, '')]: from each [#] to the end of its line. *)
Fixpoint stripComments (inComment : bool) (s : jsstring) : jsstring :=
  match s with
  | [] => []
  | c :: t =>
      if isLineTerminator c then c :: stripComments false t
      else if inComment then stripComments true t
      else if N.eqb c HASH then stripComments true t
      else c :: stripComments false t
  end.

(** [cleanContent]: the three replacements, in the order of the source. *)
Definition cleanContent (content : jsstring) : jsstring :=
  stripComments false
    (stripBlocks SQUOTE 0
       (stripBlocks DQUOTE 0 content)).

(* ================================================================== *)
(** ** Project configuration and the module-level cache *)

(** [interface ProjectConfig].  [standardLibModules] is [None] when the
    parsed JSON has no such member, which the guard
    [standardLibModules && ...] of [isValidPackageName] allows for. *)
Record ProjectConfig := mkConfig {
  directories : list jsstring;
  files : list (jsstring * jsstring);
  standardLibModules : option (list jsstring)
}.

(** The [defaultConfig] literal of [loadProjectConfig]. *)
Definition defaultConfig : ProjectConfig := {|
  directories := map js ["src"; "tests"; "docs"; "configs"]%string;
  files :=
    [ (js ".gitignore",
       join LF (map js ["venv"; "__pycache__"; "*.pyc"; ".DS_Store"; ""]%string));
      (js "requirements.txt", []);
      (js "README.md",
       join LF (map js ["# Project Title"; "";
                        "A brief description of your project."; ""]%string));
      (js "src/__init__.py", []);
      (js "tests/__init__.py", []) ];
  standardLibModules := Some (map js
    [ "abc"; "argparse"; "array"; "asyncio"; "base64"; "binascii"; "bisect";
      "calendar"; "collections"; "cmath"; "concurrent"; "contextlib"; "copy";
      "csv"; "ctypes"; "datetime"; "decimal"; "difflib"; "dis"; "email";
      "enum"; "faulthandler"; "filecmp"; "fnmatch"; "fractions"; "functools";
      "gc"; "getopt"; "getpass"; "gettext"; "glob"; "gzip"; "hashlib";
      "heapq"; "hmac"; "html"; "http"; "imaplib"; "importlib"; "inspect";
      "io"; "itertools"; "json"; "keyword"; "linecache"; "locale"; "logging";
      "lzma"; "mailbox"; "math"; "mimetypes"; "multiprocessing"; "netrc";
      "numbers"; "operator"; "os"; "pathlib"; "pickle"; "pprint"; "profile";
      "pstats"; "queue"; "random"; "re"; "readline"; "resource";
      "rlcompleter"; "sched"; "secrets"; "select"; "shelve"; "shutil";
      "signal"; "site"; "smtplib"; "socket"; "sqlite3"; "ssl"; "stat";
      "statistics"; "string"; "subprocess"; "sys"; "tabnanny"; "tempfile";
      "termios"; "textwrap"; "threading"; "time"; "timeit"; "trace";
      "traceback"; "tracemalloc"; "tty"; "types"; "unittest"; "urllib";
      "uuid"; "venv"; "warnings"; "weakref"; "webbrowser"; "xml"; "zipfile";
      "zipimport"; "zlib" ]%string)
|}.

(** A directory entry as [readdirSync], [statSync] and [readFileSync] show
    it.  [content] is [None] for a file whose [readFileSync] throws;
    [Locked] is a directory that [readdirSync] cannot list, and [Broken]
    an entry that [statSync] fails on (a link that leads nowhere, an entry
    that is gone by the time it is examined). *)
#[warnings="-register-all"]
Inductive entry :=
| File (name : jsstring) (content : option jsstring)
| Dir (name : jsstring) (children : list entry)
| Locked (name : jsstring)
| Broken (name : jsstring).

(** [requirements.txt] as [fs.promises.readFile] finds it: absent
    ([ENOENT]), readable, or failing with another error code. *)
Inductive manifestFile :=
| Missing
| Readable (data : jsstring)
| Unreadable.

(** Everything an invocation can read or change: the module variable
    [globalProjectConfig], the configuration files on disk (by the path
    [getConfigFilePath] resolves under the workspace settings), and the
    selected project directory: its entries other than [requirements.txt],
    the manifest itself, and whether [writeFile] on it succeeds. *)
Record world := mkWorld {
  globalProjectConfig : option ProjectConfig;
  getConfigFilePath : jsstring -> jsstring;
  configFiles : list (jsstring * ProjectConfig);
  projectTree : list entry;
  requirementsTxt : manifestFile;
  writable : bool
}.

Definition setGlobalProjectConfig (c : option ProjectConfig) (w : world) :=
  {| globalProjectConfig := c;
     getConfigFilePath := getConfigFilePath w;
     configFiles := configFiles w;
     projectTree := projectTree w;
     requirementsTxt := requirementsTxt w;
     writable := writable w |}.

Definition setConfigFiles (fs : list (jsstring * ProjectConfig)) (w : world) :=
  {| globalProjectConfig := globalProjectConfig w;
     getConfigFilePath := getConfigFilePath w;
     configFiles := fs;
     projectTree := projectTree w;
     requirementsTxt := requirementsTxt w;
     writable := writable w |}.

Definition setRequirementsTxt (m : manifestFile) (w : world) :=
  {| globalProjectConfig := globalProjectConfig w;
     getConfigFilePath := getConfigFilePath w;
     configFiles := configFiles w;
     projectTree := projectTree w;
     requirementsTxt := m;
     writable := writable w |}.

(** A call either returns or throws (the path it failed on); either way it
    may have changed the world. *)
Inductive result (A : Type) :=
| Returned (a : A)
| Thrown (path : jsstring).

Arguments Thrown {A} path.

Definition M (A : Type) := world -> result A * world.

Definition ret {A} (a : A) : M A := fun w => (Returned a, w).

Definition throw {A} (path : jsstring) : M A := fun w => (Thrown path, w).

Definition bind {A B} (m : M A) (k : A -> M B) : M B :=
  fun w =>
    match m w with
    | (Returned a, w') => k a w'
    | (Thrown p, w') => (Thrown p, w')
    end.

Declare Scope js_scope.
Delimit Scope js_scope with js.
Notation "x <- m ;; k" := (bind m (fun x => k))
  (at level 61, m at next level, right associativity) : js_scope.
Open Scope js_scope.

Definition lookupConfig (path : jsstring)
    (fs : list (jsstring * ProjectConfig)) : option ProjectConfig :=
  match find (fun kv => jseqb path (fst kv)) fs with
  | Some kv => Some (snd kv)
  | None => None
  end.

(** [loadProjectConfig]: when the configuration file does not exist the
    default is written there first, then the file is read and parsed.
    The file-system calls and the parse are taken to succeed, and a
    configuration file is known by its path alone, in a store apart from
    the project tree: whether that path lies in the project directory is
    not said. *)
Definition loadProjectConfig (projectPath : jsstring) : M ProjectConfig :=
  fun w =>
    let configFilePath := getConfigFilePath w projectPath in
    match lookupConfig configFilePath (configFiles w) with
    | Some c => (Returned c, w)
    | None =>
        (Returned defaultConfig,
         setConfigFiles ((configFilePath, defaultConfig) :: configFiles w) w)
    end.

(** [getProjectConfig]: load on the first call, whatever its argument, and
    answer from [globalProjectConfig] ever after. *)
Definition getProjectConfig (projectPath : jsstring) : M ProjectConfig :=
  fun w =>
    match globalProjectConfig w with
    | Some c => (Returned c, w)
    | None =>
        (c <- loadProjectConfig projectPath ;;
         fun w' => (Returned c, setGlobalProjectConfig (Some c) w')) w
    end.

(** [/^[a-zA-Z0-9_\-]+$/.test(packageName)]. *)
Definition nameRegex (packageName : jsstring) : bool :=
  truthy packageName && forallb isNameChar packageName.

Definition validUnder (config : ProjectConfig) (packageName : jsstring) : bool :=
  match standardLibModules config with
  | None => false
  | Some mods => negb (includes mods packageName) && nameRegex packageName
  end.

(** [isValidPackageName]: the configuration is asked for with the empty
    project path. *)
Definition isValidPackageName (packageName : jsstring) : M bool :=
  config <- getProjectConfig [] ;;
  ret (validUnder config packageName).

(* ================================================================== *)
(** ** The scan *)

(** The body of the [forEach] over the lines of [cleanContent]. *)
Definition scanLine (importedPackages : list jsstring) (line : jsstring)
    : M (list jsstring) :=
  match matchedPath line with
  | None => ret importedPackages
  | Some path =>
      let packageName := firstSegment path in
      if truthy packageName then
        valid <- isValidPackageName packageName ;;
        ret (if valid then setAdd packageName importedPackages
             else importedPackages)
      else ret importedPackages
  end.

Fixpoint forEachM {A S} (f : S -> A -> M S) (l : list A) (s : S) : M S :=
  match l with
  | [] => ret s
  | a :: l' => s' <- f s a ;; forEachM f l' s'
  end.

Definition scanContent (importedPackages : list jsstring)
    (content : jsstring) : M (list jsstring) :=
  forEachM scanLine (split LF (cleanContent content)) importedPackages.

Definition SLASH : N := 47.

(** One segment of the path in [normalizeString] of Node's [path.posix]:
    an empty segment and [.] are dropped, [..] takes back the last segment
    kept (or is kept itself where the path may climb above its start), any
    other segment is kept.  [res] holds the segments kept so far, the last
    one first. *)
Definition pushSegment (allowAboveRoot : bool) (res : list jsstring)
    (segment : jsstring) : list jsstring :=
  if jseqb segment [] || jseqb segment [DOT] then res
  else if jseqb segment [DOT; DOT] then
    match res with
    | [] => if allowAboveRoot then [segment] else []
    | lastSegment :: res' =>
        if jseqb lastSegment [DOT; DOT]
        then (if allowAboveRoot then segment :: res else res)
        else res'
    end
  else segment :: res.

Definition normalizeString (allowAboveRoot : bool) (path : jsstring)
    : jsstring :=
  join SLASH (rev (fold_left (pushSegment allowAboveRoot)
                     (split SLASH path) [])).

(** [path.posix.normalize(path)]. *)
Definition normalize (path : jsstring) : jsstring :=
  match path with
  | [] => [DOT]
  | c :: _ =>
      let isAbsolute := N.eqb c SLASH in
      let trailingSeparator := N.eqb (last path 0%N) SLASH in
      match normalizeString (negb isAbsolute) path with
      | [] =>
          if isAbsolute then [SLASH]
          else if trailingSeparator then [DOT; SLASH] else [DOT]
      | p =>
          let p' := if trailingSeparator then p ++ [SLASH] else p in
          if isAbsolute then SLASH :: p' else p'
      end
  end.

(** [path.join(dir, file)], as [path.posix] has it: the arguments that
    are not empty joined by [/], then normalised. *)
Definition pathJoin (dir file : jsstring) : jsstring :=
  match dir, file with
  | [], [] => [DOT]
  | [], _ :: _ => normalize file
  | _ :: _, [] => normalize dir
  | _ :: _, _ :: _ => normalize (dir ++ SLASH :: file)
  end.

(** One round of the [files.forEach] callback of [scanDirectory], with the
    recursive call on a sub-directory unfolded into the inner loop. *)
Fixpoint scanEntry (dir : jsstring) (importedPackages : list jsstring)
    (e : entry) {struct e} : M (list jsstring) :=
  match e with
  | Dir file children =>
      if jseqb file (js "myenv") then ret importedPackages
      else
        (fix scanDirectory (es : list entry) (acc : list jsstring)
           : M (list jsstring) :=
           match es with
           | [] => ret acc
           | e' :: es' =>
               acc' <- scanEntry (pathJoin dir file) acc e' ;;
               scanDirectory es' acc'
           end) children importedPackages
  | Locked file =>
      if jseqb file (js "myenv") then ret importedPackages
      else throw (pathJoin dir file)
  | Broken file => throw (pathJoin dir file)
  | File file content =>
      if endsWith file (js ".py") then
        match content with
        | None => throw (pathJoin dir file)
        | Some text => scanContent importedPackages text
        end
      else ret importedPackages
  end.

Definition scanDirectory (dir : jsstring) (es : list entry)
    (importedPackages : list jsstring) : M (list jsstring) :=
  forEachM (scanEntry dir) es importedPackages.

(** [collectImportedPackages(projectPath)]: [Array.from] of the set the
    scan of the project directory fills. *)
Definition collectImportedPackages (projectPath : jsstring)
    : M (list jsstring) :=
  fun w => scanDirectory projectPath (projectTree w) [] w.

(* ================================================================== *)
(** ** Reconciling requirements.txt *)

(** [data.split('\n').filter(Boolean)]. *)
Definition nonEmptyLines (data : jsstring) : list jsstring :=
  filter truthy (split LF data).

(** How a call of [updateRequirementsTxt] ends. *)
Inductive outcome :=
| ReadError
| Rejected (path : jsstring)
| NoNewPackages
| Updated (newPackages : list jsstring)
| WriteError (newPackages : list jsstring).

(** [importedPackages.filter(pkg => !existingPackages.includes(pkg))]. *)
Definition newPackagesOf (existingPackages importedPackages : list jsstring)
    : list jsstring :=
  filter (fun pkg => negb (includes existingPackages pkg)) importedPackages.

(** [[...new Set([...existingPackages, ...newPackages])].sort()]. *)
Definition updatedPackagesOf (existingPackages newPackages : list jsstring)
    : list jsstring :=
  sort (setOf (existingPackages ++ newPackages)).

(** [updateRequirementsTxt(selectedProjectPath)] of [extension.ts]. *)
Definition updateRequirementsTxt (selectedProjectPath : jsstring)
    (w : world) : outcome * world :=
  match requirementsTxt w with
  | Unreadable => (ReadError, w)
  | file =>
      let existingPackages :=
        match file with
        | Readable data => nonEmptyLines data
        | _ => []
        end in
      match collectImportedPackages selectedProjectPath w with
      | (Thrown p, w1) => (Rejected p, w1)
      | (Returned importedPackages, w1) =>
          let newPackages := newPackagesOf existingPackages importedPackages in
          match newPackages with
          | [] => (NoNewPackages, w1)
          | _ :: _ =>
              let updatedPackages :=
                updatedPackagesOf existingPackages newPackages in
              if writable w1 then
                (Updated newPackages,
                 setRequirementsTxt (Readable (join LF updatedPackages)) w1)
              else (WriteError newPackages, w1)
          end
      end
  end.

(* ================================================================== *)
(** ** The manifest reader of the earlier variant

    The variant of [updateRequirementsTxt] that precedes the one above
    reads the manifest into a [Map] from package name to version
    specifier, one [set] per line that matches its pattern. *)

(** [line.match(/^([a-zA-Z0-9-_]+)(==[0-9a-zA-Z.\-_]+)?$/)], giving
    [match[1]] and [match[2]] (the empty string when the group is
    absent). *)
Definition matchRequirement (line : jsstring) : option (jsstring * jsstring) :=
  match takeWhile isNameChar line with
  | [] => None
  | packageName =>
      match dropWhile isNameChar line with
      | [] => Some (packageName, [])
      | rest =>
          match stripPrefix [EQUALS; EQUALS] rest with
          | None => None
          | Some v =>
              if truthy v && forallb isVersionChar v
              then Some (packageName, EQUALS :: EQUALS :: v)
              else None
          end
      end
  end.

(** [Map.prototype.set]: a key already there keeps its place and takes
    the new value. *)
Fixpoint mapSet (k v : jsstring) (m : list (jsstring * jsstring))
    : list (jsstring * jsstring) :=
  match m with
  | [] => [(k, v)]
  | (k', v') :: m' =>
      if jseqb k k' then (k, v) :: m' else (k', v') :: mapSet k v m'
  end.

Definition mapHas (m : list (jsstring * jsstring)) (k : jsstring) : bool :=
  existsb (fun kv => jseqb k (fst kv)) m.

(** The [content.split('\n').forEach] of the earlier variant. *)
Definition readManifest (content : jsstring) : list (jsstring * jsstring) :=
  fold_left
    (fun existingPackages line =>
       match matchRequirement line with
       | Some (packageName, version) =>
           mapSet packageName version existingPackages
       | None => existingPackages
       end)
    (split LF content) [].

(** The merge of the earlier variant, given what the scan found: the
    packages the parsed manifest does not have are appended, one line
    each. *)
Definition appendMissing (content : jsstring)
    (importedPackages : list jsstring) : jsstring :=
  let existingPackages := readManifest content in
  let missingPackages :=
    filter (fun pkg => negb (mapHas existingPackages pkg)) importedPackages in
  content ++ List.concat (map (fun pkg => pkg ++ [LF]) missingPackages).

(** The package a manifest line names: what the pattern captures, or the
    whole line when it does not match. *)
Definition requirementName (line : jsstring) : jsstring :=
  match matchRequirement line with
  | Some (packageName, _) => packageName
  | None => line
  end.

(* ================================================================== *)
(** ** The scan as a function of the configuration in effect *)

Definition scanLineWith (config : ProjectConfig)
    (importedPackages : list jsstring) (line : jsstring) : list jsstring :=
  match matchedPath line with
  | None => importedPackages
  | Some path =>
      let packageName := firstSegment path in
      if truthy packageName then
        if validUnder config packageName
        then setAdd packageName importedPackages
        else importedPackages
      else importedPackages
  end.

Definition scanContentWith (config : ProjectConfig)
    (importedPackages : list jsstring) (content : jsstring) : list jsstring :=
  fold_left (scanLineWith config) (split LF (cleanContent content))
    importedPackages.

Fixpoint foldResult {A S} (f : S -> A -> result S) (l : list A) (s : S)
    : result S :=
  match l with
  | [] => Returned s
  | a :: l' =>
      match f s a with
      | Returned s' => foldResult f l' s'
      | Thrown p => Thrown p
      end
  end.

Fixpoint scanEntryWith (config : ProjectConfig) (dir : jsstring)
    (importedPackages : list jsstring) (e : entry) {struct e}
    : result (list jsstring) :=
  match e with
  | Dir file children =>
      if jseqb file (js "myenv") then Returned importedPackages
      else
        (fix scanAll (es : list entry) (acc : list jsstring)
           : result (list jsstring) :=
           match es with
           | [] => Returned acc
           | e' :: es' =>
               match scanEntryWith config (pathJoin dir file) acc e' with
               | Returned acc' => scanAll es' acc'
               | Thrown p => Thrown p
               end
           end) children importedPackages
  | Locked file =>
      if jseqb file (js "myenv") then Returned importedPackages
      else Thrown (pathJoin dir file)
  | Broken file => Thrown (pathJoin dir file)
  | File file content =>
      if endsWith file (js ".py") then
        match content with
        | None => Thrown (pathJoin dir file)
        | Some text => Returned (scanContentWith config importedPackages text)
        end
      else Returned importedPackages
  end.

Definition scanDirectoryWith (config : ProjectConfig) (dir : jsstring)
    (es : list entry) (importedPackages : list jsstring)
    : result (list jsstring) :=
  foldResult (scanEntryWith config dir) es importedPackages.

(** The configuration [getProjectConfig] answers with in a given world:
    the cached one if there is one, else what loading for the empty
    project path gives. *)
Definition configInEffect (w : world) : ProjectConfig :=
  match globalProjectConfig w with
  | Some c => c
  | None =>
      match lookupConfig (getConfigFilePath w []) (configFiles w) with
      | Some c => c
      | None => defaultConfig
      end
  end.

(** The world once [getProjectConfig('')] has run in it. *)
Definition settle (w : world) : world := snd (getProjectConfig [] w).

Definition sameOrSettled (w0 w : world) : Prop := w = w0 \/ w = settle w0.

(** [m] computes [r] in every world that [w0] can have become, and leaves
    such a world behind. *)
Definition runsTo {A} (w0 : world) (m : M A) (r : result A) : Prop :=
  forall w, sameOrSettled w0 w ->
            exists w', m w = (r, w') /\ sameOrSettled w0 w'.

(** The directories the scan walks and the files it reads, in order:
    [(path, content)] for every entry whose name ends in [.py] and that
    lies under no directory called [myenv]; and [(path, None)] as well for
    an entry the scan stops at because [statSync] or [readdirSync] fails
    on it. *)
Fixpoint visited (dir : jsstring) (e : entry) {struct e}
    : list (jsstring * option jsstring) :=
  match e with
  | Dir file children =>
      if jseqb file (js "myenv") then []
      else flat_map (visited (pathJoin dir file)) children
  | Locked file =>
      if jseqb file (js "myenv") then [] else [(pathJoin dir file, None)]
  | Broken file => [(pathJoin dir file, None)]
  | File file content =>
      if endsWith file (js ".py") then [(pathJoin dir file, content)] else []
  end.

(** The path of the first visited entry that cannot be read: a file
    [readFileSync] fails on, a directory [readdirSync] fails on, or an
    entry [statSync] fails on. *)
Fixpoint firstUnreadable (fs : list (jsstring * option jsstring))
    : option jsstring :=
  match fs with
  | [] => None
  | (p, None) :: _ => Some p
  | (_, Some _) :: fs' => firstUnreadable fs'
  end.

(** Emptying every directory called [myenv], at any depth. *)
Fixpoint pruneMyenv (e : entry) : entry :=
  match e with
  | Dir file children =>
      if jseqb file (js "myenv") then Dir file []
      else Dir file (map pruneMyenv children)
  | e' => e'
  end.

(* ================================================================== *)
(** ** What the scan visits and what it finds *)

(** The scan as a fold over the visited files: the first one that cannot
    be read stops it. *)
Fixpoint foldVisited (config : ProjectConfig)
    (fs : list (jsstring * option jsstring)) (acc : list jsstring)
    : result (list jsstring) :=
  match fs with
  | [] => Returned acc
  | (p, None) :: _ => Thrown p
  | (_, Some text) :: fs' =>
      foldVisited config fs' (scanContentWith config acc text)
  end.

(** [packageName] is what a line of source contributes under [config]:
    the first dot-separated segment of the path one of the two patterns
    captures, accepted by [isValidPackageName]. *)
Definition contributes (config : ProjectConfig) (line packageName : jsstring)
    : Prop :=
  exists path,
    matchedPath line = Some path /\
    firstSegment path = packageName /\
    validUnder config packageName = true.

(** [packageName] comes from a line of the normalised content of a
    visited, readable file. *)
Definition discoveredIn (config : ProjectConfig)
    (fs : list (jsstring * option jsstring)) (packageName : jsstring) : Prop :=
  exists path text line,
    In (path, Some text) fs /\
    In line (split LF (cleanContent text)) /\
    contributes config line packageName.

(** The order [sort] sorts by. *)
Definition jsle (a b : jsstring) : Prop := jsleb a b = true.

(** A string that [split] on a line feed leaves whole. *)
Definition noLF (s : jsstring) : Prop := ~ In LF s.

(** [existingPackages] as the read of the manifest leaves it. *)
Definition existingPackagesOf (file : manifestFile) : list jsstring :=
  match file with
  | Readable data => nonEmptyLines data
  | _ => []
  end.

(** [updateRequirementsTxt] as a function of what it reads: how the call
    ends and what the manifest is afterwards. *)
Definition reconcileWith (config : ProjectConfig) (projectPath : jsstring)
    (tree : list entry) (file : manifestFile) (canWrite : bool)
    : outcome * manifestFile :=
  match file with
  | Unreadable => (ReadError, file)
  | _ =>
      match scanDirectoryWith config projectPath tree [] with
      | Thrown p => (Rejected p, file)
      | Returned importedPackages =>
          match newPackagesOf (existingPackagesOf file) importedPackages with
          | [] => (NoNewPackages, file)
          | newPackages =>
              if canWrite then
                (Updated newPackages,
                 Readable (join LF
                   (updatedPackagesOf (existingPackagesOf file) newPackages)))
              else (WriteError newPackages, file)
          end
      end
  end.



(* ================================================================== *)
(** ** Example projects *)

(** Where the configuration file is looked for when the workspace has no
    [pyracantha.configFile] setting. *)
Definition configPathFor (projectPath : jsstring) : jsstring :=
  projectPath ++ js "/.vscode/pyracantha-config.json".

(** A project in a freshly activated extension: nothing cached, no
    configuration file anywhere, a writable manifest. *)
Definition project (tree : list entry) (manifest : manifestFile) : world :=
  {| globalProjectConfig := None;
     getConfigFilePath := configPathFor;
     configFiles := [];
     projectTree := tree;
     requirementsTxt := manifest;
     writable := true |}.

Definition root : jsstring := js "/work/demo".

Definition sourceFile (name : string) (lines : list jsstring) : entry :=
  File (js name) (Some (join LF lines)).

(** [import os], [import requests] and a [from sklearn.linear_model]
    import, each on its own line. *)
Definition scenarioB : world :=
  project
    [ sourceFile "main.py"
        [ js "import os"; js "import requests";
          js "from sklearn.linear_model import LinearRegression"; [] ] ]
    Missing.

(** A manifest that pins [numpy], and sources that import [numpy] and
    [requests]. *)
Definition scenarioC : world :=
  project
    [ sourceFile "main.py" [ js "import numpy"; js "import requests"; [] ] ]
    (Readable (js "numpy==1.21.0" ++ [LF])).

(** The same manifest, and sources that import [numpy] alone. *)
Definition pinnedOnly : world :=
  project
    [ sourceFile "main.py" [ js "import numpy"; [] ] ]
    (Readable (js "numpy==1.21.0" ++ [LF])).

(** A virtual environment two levels down, with a file that cannot even
    be read. *)
Definition withMyenv : world :=
  project
    [ sourceFile "app.py" [ js "import requests" ];
      Dir (js "tools")
        [ Dir (js "myenv")
            [ Dir (js "lib")
                [ sourceFile "site.py" [ js "import vendored" ];
                  File (js "broken.py") None ] ] ] ]
    Missing.

(** One unreadable source file next to a readable one. *)
Definition oneUnreadable : world :=
  project
    [ File (js "a.py") None;
      sourceFile "b.py" [ js "import requests" ] ]
    Missing.

Definition withoutUnreadable : world :=
  project [ sourceFile "b.py" [ js "import requests" ] ] Missing.

(** A readable source file, then a directory that cannot be listed and a
    link that leads nowhere. *)
Definition withLockedDirectory : world :=
  project
    [ sourceFile "a.py" [ js "import requests" ];
      Locked (js "private");
      Broken (js "link.py") ]
    Missing.

(** A configuration file left at another project, which lists [requests]
    among the standard modules. *)
Definition otherRoot : jsstring := js "/work/other".

Definition otherConfig : ProjectConfig :=
  {| directories := [];
     files := [];
     standardLibModules := Some [js "os"; js "requests"] |}.

(** A freshly activated extension, the default configuration at the
    place [getProjectConfig('')] looks, [otherConfig] at [otherRoot], and
    a project that imports [requests]. *)
Definition beforeOther : world :=
  {| globalProjectConfig := None;
     getConfigFilePath := configPathFor;
     configFiles := [ (configPathFor [], defaultConfig);
                      (configPathFor otherRoot, otherConfig) ];
     projectTree := [ sourceFile "main.py" [ js "import requests" ] ];
     requirementsTxt := Missing;
     writable := true |}.

(** The same after [getProjectConfig(otherRoot)], the first thing
    [analyzePythonProject(otherRoot)] and
    [createPythonProjectStructure(otherRoot)] do. *)
Definition afterOther : world := snd (getProjectConfig otherRoot beforeOther).


(** A hand-edited manifest that starts with a comment line. *)
Definition handEdited : world :=
  project
    [ sourceFile "main.py" [ js "import requests" ] ]
    (Readable (join LF [js "# pinned by hand"; js "numpy"; []])).




(** Standard modules imported in both forms, with and without a dotted
    path. *)
Definition standardBothForms : world :=
  project
    [ sourceFile "main.py"
        [ js "import os"; js "from os.path import join";
          js "import json.decoder"; js "from json import loads"; [] ] ]
    Missing.


(** Two states of one project: the same two source files listed in either
    order, and the same manifest lines in either order, once with a line
    repeated and a blank line. *)
Definition listedOneWay : world :=
  project
    [ sourceFile "a.py" [ js "import requests" ];
      sourceFile "b.py" [ js "import flask" ] ]
    (Readable (join LF [js "zope"; js "attrs"; []])).

Definition listedOtherWay : world :=
  project
    [ sourceFile "b.py" [ js "import flask" ];
      sourceFile "a.py" [ js "import requests" ] ]
    (Readable (join LF [js "attrs"; []; js "zope"; js "attrs"])).

(** [Map.prototype.get]. *)
Definition mapGet (m : list (jsstring * jsstring)) (k : jsstring)
    : option jsstring :=
  match find (fun kv => jseqb k (fst kv)) m with
  | Some kv => Some (snd kv)
  | None => None
  end.

(* ================================================================== *)
(** ** Creating the project structure *)

(** The [type] argument of [validateName]. *)
Inductive nameType := DirectoryName | FileName | ProjectName.

(** [[a-zA-Z0-9_\-\.]]. *)
Definition isFileNameChar (c : N) : bool :=
  isAlnum c || N.eqb c UNDERSCORE || N.eqb c MINUS || N.eqb c DOT.

(** [validateName(name, type)]: the test of the pattern chosen by
    [type]; the error message shown for a rejected name is left out. *)
Definition validateName (name : jsstring) (type : nameType) : bool :=
  match type with
  | FileName => truthy name && forallb isFileNameChar name
  | _ => truthy name && forallb isNameChar name
  end.

(** What [existsSync] finds under a name in the project directory: a
    directory, a file with its content, or something else. *)
Inductive item :=
| Directory (name : jsstring)
| Regular (name : jsstring) (content : jsstring)
| Other (name : jsstring).

(** The project directory as the loops of [createPythonProjectStructure]
    work on it: what [existsSync] finds in it other than
    [requirements.txt], the manifest, the names whose creation by
    [mkdirSync] or [writeFileSync] fails, and whether [appendFileSync] on
    the manifest succeeds.  Names are compared as they are, as on a
    case-sensitive file system. *)
Record folder := mkFolder {
  entries : list item;
  manifest : manifestFile;
  refused : list jsstring;
  appendable : bool
}.

Definition addEntry (e : item) (f : folder) : folder :=
  {| entries := entries f ++ [e];
     manifest := manifest f;
     refused := refused f;
     appendable := appendable f |}.

Definition setManifest (m : manifestFile) (f : folder) : folder :=
  {| entries := entries f;
     manifest := m;
     refused := refused f;
     appendable := appendable f |}.

Definition entryName (e : item) : jsstring :=
  match e with
  | Directory name => name
  | Regular name _ => name
  | Other name => name
  end.

Definition requirementsName : jsstring := js "requirements.txt".

(** [fs.existsSync(path.join(projectPath, name))] for a name without a
    path separator. *)
Definition existsSync (f : folder) (name : jsstring) : bool :=
  if jseqb name requirementsName then
    match manifest f with
    | Missing => false
    | _ => true
    end
  else
    jseqb name (js ".") || jseqb name (js "..")
    || existsb (fun e => jseqb name (entryName e)) (entries f).

(** A run of file-system calls: it completes or throws at a name, and
    leaves the folder as far as it got. *)
Definition steps := folder -> result unit * folder.

Definition done : steps := fun f => (Returned tt, f).

Definition andThen (a b : steps) : steps :=
  fun f =>
    match a f with
    | (Returned _, f') => b f'
    | (Thrown p, f') => (Thrown p, f')
    end.

Fixpoint forEach {A} (g : A -> steps) (l : list A) : steps :=
  match l with
  | [] => done
  | a :: l' => andThen (g a) (forEach g l')
  end.

(** [createDirectory(path.join(projectPath, name))]. *)
Definition createDirectory (name : jsstring) : steps :=
  fun f =>
    if existsSync f name then (Returned tt, f)
    else if includes (refused f) name then (Thrown name, f)
    else if jseqb name requirementsName
         then (Returned tt, setManifest Unreadable f)
         else (Returned tt, addEntry (Directory name) f).

(** [createFile(path.join(projectPath, name), content)]. *)
Definition createFile (name content : jsstring) : steps :=
  fun f =>
    if existsSync f name then (Returned tt, f)
    else if includes (refused f) name then (Thrown name, f)
    else if jseqb name requirementsName
         then (Returned tt, setManifest (Readable content) f)
         else (Returned tt, addEntry (Regular name content) f).

(** ['numpy\npandas\nscikit-learn\n']. *)
Definition additionalRequirements : jsstring :=
  join LF [js "numpy"; js "pandas"; js "scikit-learn"; []].

(** The [if (fs.existsSync(requirementsFilePath))] block. *)
Definition appendRequirements : steps :=
  fun f =>
    match manifest f with
    | Missing => (Returned tt, f)
    | Readable data =>
        if appendable f
        then (Returned tt,
              setManifest (Readable (data ++ additionalRequirements)) f)
        else (Thrown requirementsName, f)
    | Unreadable =>
        if appendable f then (Returned tt, f)
        else (Thrown requirementsName, f)
    end.

(** The part of [createPythonProjectStructure(projectPath)] from
    [const dirs] to the end of its [try] block, for the configuration
    [config] that [getProjectConfig(projectPath)] returned: the two
    [forEach] loops and the append.  An exception ends the block; the
    [catch] only reports it.  What the function does before ([mkdirSync]
    of a project directory that does not exist, and [getProjectConfig],
    whose first call loads the configuration and may create its file) is
    not part of it: [folder] is the directory as these two have left
    it. *)
Definition createStructure (config : ProjectConfig) : steps :=
  andThen
    (forEach
       (fun dir =>
          if validateName dir DirectoryName then createDirectory dir else done)
       (directories config))
    (andThen
       (forEach
          (fun fc =>
             if validateName (fst fc) FileName
             then createFile (fst fc) (snd fc) else done)
          (files config))
       appendRequirements).

(** An entry the configuration asks for, under a name that passes
    [validateName] and that nothing in [f0] has. *)
Definition createdFrom (config : ProjectConfig) (f0 : folder) (e : item)
    : Prop :=
  existsSync f0 (entryName e) = false /\
  validateName (entryName e) FileName = true /\
  ~ In SLASH (entryName e) /\
  ((exists name, e = Directory name /\ In name (directories config)) \/
   (exists name content,
      e = Regular name content /\ In (name, content) (files config))).


(** What the two loops of [createStructure] can have made of
    [f0]: new entries at the end, each [createdFrom] the configuration,
    and the manifest as it was or, if there was none, created from the
    configuration. *)
Definition grownFrom (config : ProjectConfig) (f0 f : folder) : Prop :=
  refused f = refused f0 /\
  appendable f = appendable f0 /\
  (exists added,
     entries f = entries f0 ++ added /\
     Forall (createdFrom config f0) added) /\
  (manifest f = manifest f0 \/
   (manifest f0 = Missing /\
    exists content,
      In (requirementsName, content) (files config) /\
      manifest f = Readable content)).

(** A step that keeps a property of the folder, however it ends. *)
Definition preserves (P : folder -> Prop) (s : steps) : Prop :=
  forall f, P f -> P (snd (s f)).

(* ================================================================== *)
(** ** The scan of the earlier variants

    The earlier variants of [collectImportedPackages] search the raw
    content of a file, with no normalisation, no anchoring to the start
    of a line and no validation of the names. *)

(** One alternative of [/(?:import\s+([^\s,]+)|from\s+([^\s,]+))/] tried
    at the start of [s]: the length of the match. *)
Definition keywordMatch (keyword s : jsstring) : option nat :=
  match stripPrefix keyword s with
  | None => None
  | Some r =>
      match takeWhile isSpace r with
      | [] => None
      | ws =>
          match takeWhile isTargetChar (dropWhile isSpace r) with
          | [] => None
          | g => Some (List.length keyword + List.length ws + List.length g)
          end
      end
  end.

Definition statementAt (s : jsstring) : option nat :=
  match keywordMatch (js "import") s with
  | Some n => Some n
  | None => keywordMatch (js "from") s
  end.

(** [content.match(/.../g)]: the matched texts from left to right, each
    search resuming where the last match ended.  [skip] counts the code
    units of the current match still to pass. *)
Fixpoint matchAll (skip : nat) (s : jsstring) : list jsstring :=
  match s with
  | [] => []
  | _ :: t =>
      match skip with
      | S k => matchAll k t
      | O =>
          match statementAt s with
          | Some n => firstn n s :: matchAll (n - 1) t
          | None => matchAll 0 t
          end
      end
  end.

(** [/(?:import\s+|from\s+)([^\s,]+).*/] tried at the start of [s]: the
    captured group and what is left after the match. *)
Definition statementPattern (keyword s : jsstring)
    : option (jsstring * jsstring) :=
  match stripPrefix keyword s with
  | None => None
  | Some r =>
      match spaces1 r with
      | None => None
      | Some r' =>
          match target1 r' with
          | None => None
          | Some (g, r2) =>
              Some (g, dropWhile (fun c => negb (isLineTerminator c)) r2)
          end
      end
  end.

(** [statement.replace(/(?:import\s+|from\s+)([^\s,]+).*/, '$1')]. *)
Fixpoint replaceStatement (s : jsstring) : jsstring :=
  match s with
  | [] => []
  | c :: t =>
      match (match statementPattern (js "import") s with
             | Some m => Some m
             | None => statementPattern (js "from") s
             end) with
      | Some (g, rest) => g ++ rest
      | None => c :: replaceStatement t
      end
  end.

(** The [importStatements.forEach] of the earlier variants, on the
    content of one file. *)
Definition earlierScanContent (importedPackages : list jsstring)
    (content : jsstring) : list jsstring :=
  fold_left
    (fun acc statement =>
       let packageName := firstSegment (replaceStatement statement) in
       if truthy packageName then setAdd packageName acc else acc)
    (matchAll 0 content) importedPackages.

(* ================================================================== *)
(** ** Source files in pieces *)











Unset Implicit Arguments.

(** * Properties *)

(** Closed facts about example projects are settled by running the
    model. *)
Ltac by_evaluation := repeat split; vm_compute; reflexivity.

(** ** Strings, sets and sorting *)

Lemma jseqb_eq : forall a b, jseqb a b = true <-> a = b.
Proof.
  induction a as [|x a IH]; destruct b as [|y b]; simpl; split;
    try congruence; try discriminate; auto.
  - intros H. apply andb_true_iff in H. destruct H as [Hx Hr].
    apply N.eqb_eq in Hx. apply IH in Hr. congruence.
  - intros H. injection H as -> ->. rewrite N.eqb_refl. simpl.
    now apply IH.
Qed.

Lemma jseqb_refl : forall a, jseqb a a = true.
Proof. intros a. now apply jseqb_eq. Qed.

Lemma jseqb_neq : forall a b, jseqb a b = false <-> a <> b.
Proof.
  intros a b. split.
  - intros H E. apply jseqb_eq in E. congruence.
  - intros H. destruct (jseqb a b) eqn:E; auto.
    apply jseqb_eq in E. contradiction.
Qed.

Lemma includes_In : forall arr x, includes arr x = true <-> In x arr.
Proof.
  intros arr x. unfold includes. rewrite existsb_exists. split.
  - intros [y [Hy E]]. apply jseqb_eq in E. now subst.
  - intros H. exists x. split; auto. apply jseqb_refl.
Qed.

Lemma includes_not_In : forall arr x, includes arr x = false <-> ~ In x arr.
Proof.
  intros arr x. rewrite <- includes_In.
  destruct (includes arr x); split; congruence.
Qed.

Lemma setAdd_In : forall x s y, In y (setAdd x s) <-> y = x \/ In y s.
Proof.
  intros x s y. unfold setAdd. destruct (includes s x) eqn:E.
  - apply includes_In in E. split; auto. intros [->|H]; auto.
  - rewrite in_app_iff. simpl. intuition.
Qed.

Lemma setAdd_NoDup : forall x s, NoDup s -> NoDup (setAdd x s).
Proof.
  intros x s H. unfold setAdd. destruct (includes s x) eqn:E; auto.
  apply includes_not_In in E.
  apply NoDup_app; auto.
  - constructor; auto. constructor.
  - intros y Hy [<-|[]]. contradiction.
Qed.

Lemma fold_setAdd_In : forall arr s y,
  In y (fold_left (fun s x => setAdd x s) arr s) <-> In y s \/ In y arr.
Proof.
  induction arr as [|a arr IH]; intros s y; simpl.
  - intuition.
  - rewrite IH, setAdd_In. intuition.
Qed.

Lemma fold_setAdd_NoDup : forall arr s,
  NoDup s -> NoDup (fold_left (fun s x => setAdd x s) arr s).
Proof.
  induction arr as [|a arr IH]; intros s H; simpl; auto.
  apply IH. now apply setAdd_NoDup.
Qed.

Lemma setOf_In : forall arr y, In y (setOf arr) <-> In y arr.
Proof.
  intros arr y. unfold setOf. rewrite fold_setAdd_In. simpl. intuition.
Qed.

Lemma setOf_NoDup : forall arr, NoDup (setOf arr).
Proof. intros arr. apply fold_setAdd_NoDup. constructor. Qed.

Lemma jsleb_total : forall a b, jsleb a b = false -> jsleb b a = true.
Proof.
  induction a as [|x a IH]; destruct b as [|y b]; simpl; try congruence.
  destruct (N.ltb x y) eqn:Hxy; try discriminate.
  destruct (N.eqb x y) eqn:Exy.
  - apply N.eqb_eq in Exy. subst y. rewrite Hxy, N.eqb_refl. apply IH.
  - intros _. apply N.ltb_ge in Hxy. apply N.eqb_neq in Exy.
    assert (H : (y < x)%N) by lia.
    apply N.ltb_lt in H. now rewrite H.
Qed.

Lemma jsleb_antisym : forall a b,
  jsleb a b = true -> jsleb b a = true -> a = b.
Proof.
  induction a as [|x a IH]; destruct b as [|y b]; simpl;
    try congruence; try discriminate.
  destruct (N.ltb x y) eqn:Hxy.
  - apply N.ltb_lt in Hxy. intros _.
    assert (H : N.ltb y x = false) by (apply N.ltb_ge; lia).
    rewrite H.
    assert (H' : N.eqb y x = false) by (apply N.eqb_neq; lia).
    rewrite H'. discriminate.
  - destruct (N.eqb x y) eqn:Exy; try discriminate.
    apply N.eqb_eq in Exy. subst y. rewrite Hxy, N.eqb_refl.
    intros H1 H2. f_equal. now apply IH.
Qed.

Lemma insertSorted_Permutation : forall x l,
  Permutation (insertSorted x l) (x :: l).
Proof.
  induction l as [|y l IH]; simpl; auto.
  destruct (jsleb x y); auto.
  rewrite IH. apply perm_swap.
Qed.

Lemma sort_Permutation : forall l, Permutation (sort l) l.
Proof.
  induction l as [|x l IH]; simpl; auto.
  unfold sort in *. simpl. rewrite insertSorted_Permutation. now constructor.
Qed.

Lemma sort_In : forall l x, In x (sort l) <-> In x l.
Proof.
  intros l x. split; apply Permutation_in.
  - apply sort_Permutation.
  - symmetry. apply sort_Permutation.
Qed.

Lemma sort_NoDup : forall l, NoDup l -> NoDup (sort l).
Proof.
  intros l H. eapply Permutation_NoDup; [|exact H].
  symmetry. apply sort_Permutation.
Qed.

Lemma insertSorted_HdRel : forall a x l,
  HdRel jsle a l -> jsle a x -> HdRel jsle a (insertSorted x l).
Proof.
  intros a x l H Hax. destruct l as [|y l]; simpl.
  - now constructor.
  - destruct (jsleb x y); constructor; auto. now inversion H.
Qed.

Lemma insertSorted_Sorted : forall x l,
  Sorted jsle l -> Sorted jsle (insertSorted x l).
Proof.
  induction l as [|y l IH]; simpl; intros H.
  - repeat constructor.
  - destruct (jsleb x y) eqn:E.
    + constructor; auto.
    + inversion H; subst. constructor; auto.
      apply insertSorted_HdRel; auto.
      now apply jsleb_total.
Qed.

Lemma sort_Sorted : forall l, Sorted jsle (sort l).
Proof.
  induction l as [|x l IH]; simpl.
  - constructor.
  - unfold sort in *. simpl. now apply insertSorted_Sorted.
Qed.

(** ** Lines *)

Lemma split_nonempty : forall sep s, split sep s <> [].
Proof.
  intros sep s. destruct s as [|c t]; simpl; try discriminate.
  destruct (N.eqb c sep); try discriminate.
  destruct (split sep t); discriminate.
Qed.

Lemma split_noLF : forall s, Forall noLF (split LF s).
Proof.
  induction s as [|c t IH]; simpl.
  - constructor; auto. intros [].
  - destruct (N.eqb c LF) eqn:E.
    + constructor; auto. intros [].
    + destruct (split LF t) as [|l ls] eqn:S.
      * constructor; auto. intros [H|[]]. subst c. discriminate.
      * inversion IH; subst. constructor; auto.
        intros [H|H]; [subst c; discriminate | contradiction].
Qed.

Lemma split_app_LF : forall l rest,
  noLF l -> split LF (l ++ LF :: rest) = l :: split LF rest.
Proof.
  induction l as [|c l IH]; intros rest H; simpl.
  - reflexivity.
  - destruct (N.eqb c LF) eqn:E.
    + apply N.eqb_eq in E. exfalso. apply H. now left.
    + rewrite IH; auto. intros Hin. apply H. now right.
Qed.

Lemma split_single : forall l, noLF l -> split LF l = [l].
Proof.
  induction l as [|c l IH]; intros H; simpl; auto.
  destruct (N.eqb c LF) eqn:E.
  - apply N.eqb_eq in E. exfalso. apply H. now left.
  - rewrite IH; auto. intros Hin. apply H. now right.
Qed.

Lemma split_join : forall ls,
  ls <> [] -> Forall noLF ls -> split LF (join LF ls) = ls.
Proof.
  induction ls as [|l ls IH]; intros Hne H; [congruence|].
  inversion H; subst. destruct ls as [|l' ls'].
  - simpl. now apply split_single.
  - change (join LF (l :: l' :: ls')) with (l ++ LF :: join LF (l' :: ls')).
    rewrite split_app_LF; auto. f_equal. apply IH; auto. discriminate.
Qed.

Lemma filter_all : forall (A : Type) (p : A -> bool) l,
  Forall (fun x => p x = true) l -> filter p l = l.
Proof.
  induction l as [|x l IH]; intros H; simpl; auto.
  inversion H; subst. rewrite H2. f_equal. auto.
Qed.

(** Reading back what [join] wrote gives the lines that were joined. *)
Lemma nonEmptyLines_join : forall ls,
  Forall noLF ls -> Forall (fun l => truthy l = true) ls ->
  nonEmptyLines (join LF ls) = ls.
Proof.
  intros ls H1 H2. unfold nonEmptyLines. destruct ls as [|l ls].
  - reflexivity.
  - rewrite split_join; auto; try discriminate. now apply filter_all.
Qed.

Lemma nonEmptyLines_In : forall data line,
  In line (nonEmptyLines data) <-> In line (split LF data) /\ line <> [].
Proof.
  intros data line. unfold nonEmptyLines. rewrite filter_In.
  destruct line; simpl; intuition congruence.
Qed.

Lemma nonEmptyLines_noLF : forall data, Forall noLF (nonEmptyLines data).
Proof.
  intros data. apply Forall_forall. intros l Hl.
  apply nonEmptyLines_In in Hl. destruct Hl as [Hl _].
  pose proof (split_noLF data) as H. rewrite Forall_forall in H. auto.
Qed.

Lemma nonEmptyLines_truthy : forall data,
  Forall (fun l => truthy l = true) (nonEmptyLines data).
Proof.
  intros data. apply Forall_forall. intros l Hl.
  apply nonEmptyLines_In in Hl. destruct Hl as [_ Hl].
  destruct l; simpl; congruence.
Qed.

(** ** Package names *)

Lemma isNameChar_not_LF : isNameChar LF = false.
Proof. reflexivity. Qed.

Lemma nameRegex_truthy : forall p, nameRegex p = true -> truthy p = true.
Proof. intros p H. unfold nameRegex in H. now apply andb_true_iff in H. Qed.

Lemma nameRegex_chars : forall p c,
  nameRegex p = true -> In c p -> isNameChar c = true.
Proof.
  intros p c H Hc. unfold nameRegex in H. apply andb_true_iff in H.
  destruct H as [_ H]. rewrite forallb_forall in H. auto.
Qed.

Lemma nameRegex_noLF : forall p, nameRegex p = true -> noLF p.
Proof.
  intros p H Hin. pose proof (nameRegex_chars _ _ H Hin) as E.
  rewrite isNameChar_not_LF in E. discriminate.
Qed.

Lemma validUnder_nameRegex : forall config p,
  validUnder config p = true -> nameRegex p = true.
Proof.
  intros config p. unfold validUnder.
  destruct (standardLibModules config); try discriminate.
  intros H. now apply andb_true_iff in H.
Qed.

Lemma validUnder_not_standard : forall config p mods,
  validUnder config p = true ->
  standardLibModules config = Some mods -> ~ In p mods.
Proof.
  intros config p mods. unfold validUnder.
  intros H E. rewrite E in H. apply andb_true_iff in H.
  destruct H as [H _]. apply negb_true_iff in H.
  now apply includes_not_In.
Qed.

(** ** The cache and the worlds a scan passes through *)

Lemma getProjectConfig_run : forall w,
  getProjectConfig [] w = (Returned (configInEffect w), settle w).
Proof.
  intros w. unfold settle, configInEffect, getProjectConfig, bind,
    loadProjectConfig.
  destruct (globalProjectConfig w); simpl; auto.
  destruct (lookupConfig (getConfigFilePath w []) (configFiles w)); reflexivity.
Qed.

Lemma settle_cached : forall w,
  globalProjectConfig (settle w) = Some (configInEffect w).
Proof.
  intros w. unfold settle, configInEffect, getProjectConfig, bind,
    loadProjectConfig.
  destruct (globalProjectConfig w) eqn:E; simpl; auto.
  destruct (lookupConfig (getConfigFilePath w []) (configFiles w)); reflexivity.
Qed.

Lemma settle_frame : forall w,
  projectTree (settle w) = projectTree w /\
  requirementsTxt (settle w) = requirementsTxt w /\
  writable (settle w) = writable w.
Proof.
  intros w. unfold settle, getProjectConfig, bind, loadProjectConfig.
  destruct (globalProjectConfig w); simpl; auto.
  destruct (lookupConfig (getConfigFilePath w []) (configFiles w));
    simpl; auto.
Qed.

Lemma configInEffect_settle : forall w,
  configInEffect (settle w) = configInEffect w.
Proof.
  intros w. unfold configInEffect at 1. now rewrite settle_cached.
Qed.

Lemma settle_settle : forall w, settle (settle w) = settle w.
Proof.
  intros w. unfold settle at 1. unfold getProjectConfig.
  now rewrite settle_cached.
Qed.

Lemma settle_when_cached : forall w c,
  globalProjectConfig w = Some c -> settle w = w.
Proof.
  intros w c H. unfold settle, getProjectConfig. now rewrite H.
Qed.

Lemma sameOrSettled_refl : forall w, sameOrSettled w w.
Proof. intros w. now left. Qed.

Lemma sameOrSettled_frame : forall w0 w,
  sameOrSettled w0 w ->
  projectTree w = projectTree w0 /\
  requirementsTxt w = requirementsTxt w0 /\
  writable w = writable w0 /\
  configInEffect w = configInEffect w0.
Proof.
  intros w0 w [->| ->]; auto.
  destruct (settle_frame w0) as [H1 [H2 H3]].
  rewrite H1, H2, H3, configInEffect_settle. auto.
Qed.

Lemma sameOrSettled_cache : forall w0 w,
  sameOrSettled w0 w ->
  globalProjectConfig w = globalProjectConfig w0 \/
  globalProjectConfig w = Some (configInEffect w0).
Proof.
  intros w0 w [->| ->]; auto. right. apply settle_cached.
Qed.

Lemma runsTo_ret : forall A w0 (a : A), runsTo w0 (ret a) (Returned a).
Proof. intros A w0 a w H. exists w. split; auto. Qed.

Lemma runsTo_throw : forall A w0 p, runsTo w0 (@throw A p) (Thrown p).
Proof. intros A w0 p w H. exists w. split; auto. Qed.

Lemma runsTo_bind : forall A B w0 (m : M A) (k : A -> M B) a r,
  runsTo w0 m (Returned a) -> runsTo w0 (k a) r -> runsTo w0 (bind m k) r.
Proof.
  intros A B w0 m k a r Hm Hk w Hw.
  destruct (Hm w Hw) as [w1 [E1 H1]].
  destruct (Hk w1 H1) as [w2 [E2 H2]].
  exists w2. split; auto. unfold bind. now rewrite E1.
Qed.

Lemma runsTo_bind_thrown : forall A B w0 (m : M A) (k : A -> M B) p,
  runsTo w0 m (Thrown p) -> runsTo w0 (bind m k) (Thrown p).
Proof.
  intros A B w0 m k p Hm w Hw.
  destruct (Hm w Hw) as [w1 [E1 H1]].
  exists w1. split; auto. unfold bind. now rewrite E1.
Qed.

Lemma isValidPackageName_runsTo : forall w0 p,
  runsTo w0 (isValidPackageName p)
    (Returned (validUnder (configInEffect w0) p)).
Proof.
  intros w0 p w Hw. exists (settle w0). split; [|now right].
  unfold isValidPackageName, bind, ret.
  rewrite getProjectConfig_run.
  destruct Hw as [->| ->]; auto.
  now rewrite configInEffect_settle, settle_settle.
Qed.

Lemma scanLine_runsTo : forall w0 acc line,
  runsTo w0 (scanLine acc line)
    (Returned (scanLineWith (configInEffect w0) acc line)).
Proof.
  intros w0 acc line. unfold scanLine, scanLineWith.
  destruct (matchedPath line) as [path|]; [|apply runsTo_ret].
  destruct (truthy (firstSegment path)); [|apply runsTo_ret].
  eapply runsTo_bind; [apply isValidPackageName_runsTo|].
  destruct (validUnder (configInEffect w0) (firstSegment path));
    apply runsTo_ret.
Qed.

Lemma scanContent_runsTo : forall w0 acc content,
  runsTo w0 (scanContent acc content)
    (Returned (scanContentWith (configInEffect w0) acc content)).
Proof.
  intros w0 acc content. unfold scanContent, scanContentWith.
  generalize (split LF (cleanContent content)) as ls. intros ls. revert acc.
  induction ls as [|l ls IH]; intros acc; simpl.
  - apply runsTo_ret.
  - eapply runsTo_bind; [apply scanLine_runsTo | apply IH].
Qed.

(** Induction on a directory tree. *)
Lemma entry_induction : forall P : entry -> Prop,
  (forall name content, P (File name content)) ->
  (forall name children, Forall P children -> P (Dir name children)) ->
  (forall name, P (Locked name)) ->
  (forall name, P (Broken name)) ->
  forall e, P e.
Proof.
  intros P HF HD HL HB. fix IH 1.
  intros [name content | name children | name | name].
  - apply HF.
  - apply HD. induction children as [|c cs IHcs]; constructor; auto.
  - apply HL.
  - apply HB.
Qed.

Lemma forEachM_runsTo : forall w0 config dir es acc,
  Forall (fun e => forall dir acc,
            runsTo w0 (scanEntry dir acc e) (scanEntryWith config dir acc e)) es ->
  runsTo w0 (forEachM (scanEntry dir) es acc)
    (foldResult (scanEntryWith config dir) es acc).
Proof.
  intros w0 config dir es. induction es as [|e es IH]; intros acc H; simpl.
  - apply runsTo_ret.
  - inversion H; subst.
    destruct (scanEntryWith config dir acc e) as [acc'|p] eqn:E.
    + eapply runsTo_bind; [rewrite <- E; apply H2 | now apply IH].
    + apply runsTo_bind_thrown. rewrite <- E. apply H2.
Qed.

(** The inner loop of [scanEntry] is the loop of [scanDirectory]. *)
Lemma scanEntry_Dir : forall dir acc file children w,
  scanEntry dir acc (Dir file children) w =
  if jseqb file (js "myenv") then ret acc w
  else scanDirectory (pathJoin dir file) children acc w.
Proof.
  intros dir acc file children w. simpl.
  destruct (jseqb file (js "myenv")); auto.
  unfold scanDirectory. revert acc w.
  induction children as [|c cs IH]; intros acc w; simpl; auto.
  unfold bind.
  destruct (scanEntry (pathJoin dir file) acc c w) as [[acc'|p] w']; auto.
Qed.

Lemma scanEntryWith_Dir : forall config dir acc file children,
  scanEntryWith config dir acc (Dir file children) =
  if jseqb file (js "myenv") then Returned acc
  else scanDirectoryWith config (pathJoin dir file) children acc.
Proof.
  intros config dir acc file children. simpl.
  destruct (jseqb file (js "myenv")); auto.
  unfold scanDirectoryWith. revert acc.
  induction children as [|c cs IH]; intros acc; simpl; auto.
  destruct (scanEntryWith config (pathJoin dir file) acc c); auto.
Qed.

Lemma runsTo_ext : forall A w0 (m m' : M A) r,
  (forall w, m w = m' w) -> runsTo w0 m' r -> runsTo w0 m r.
Proof.
  intros A w0 m m' r E H w Hw. rewrite E. now apply H.
Qed.

Lemma scanEntry_runsTo : forall w0 e dir acc,
  runsTo w0 (scanEntry dir acc e)
    (scanEntryWith (configInEffect w0) dir acc e).
Proof.
  intros w0 e. induction e as [name content | name children IH | name | name]
    using entry_induction; intros dir acc.
  - simpl. destruct (endsWith name (js ".py")); [|apply runsTo_ret].
    destruct content as [text|]; [apply scanContent_runsTo|apply runsTo_throw].
  - rewrite scanEntryWith_Dir.
    eapply runsTo_ext; [intros w; apply scanEntry_Dir|].
    destruct (jseqb name (js "myenv")); [apply runsTo_ret|].
    now apply forEachM_runsTo.
  - simpl. destruct (jseqb name (js "myenv"));
      [apply runsTo_ret|apply runsTo_throw].
  - apply runsTo_throw.
Qed.

(** The scan computes [scanDirectoryWith] under the configuration in
    effect, and at most fills the cache on the way. *)
Lemma collectImportedPackages_run : forall w projectPath,
  exists w',
    collectImportedPackages projectPath w =
      (scanDirectoryWith (configInEffect w) projectPath (projectTree w) [], w')
    /\ sameOrSettled w w'.
Proof.
  intros w projectPath. unfold collectImportedPackages, scanDirectory.
  apply forEachM_runsTo.
  - apply Forall_forall. intros e _ dir acc. apply scanEntry_runsTo.
  - apply sameOrSettled_refl.
Qed.

(** ** The scan is a fold over the visited files *)

Lemma foldVisited_app : forall config a b acc,
  foldVisited config (a ++ b) acc =
  match foldVisited config a acc with
  | Returned acc' => foldVisited config b acc'
  | Thrown p => Thrown p
  end.
Proof.
  intros config a b. induction a as [|[p [text|]] a IH]; intros acc;
    simpl; auto.
Qed.

Lemma scanEntryWith_visited : forall config e dir acc,
  scanEntryWith config dir acc e = foldVisited config (visited dir e) acc.
Proof.
  intros config e. induction e as [name content | name children IH | name | name]
    using entry_induction; intros dir acc.
  - simpl. destruct (endsWith name (js ".py")); auto; destruct content; auto.
  - rewrite scanEntryWith_Dir. simpl visited.
    destruct (jseqb name (js "myenv")); auto.
    unfold scanDirectoryWith. generalize (pathJoin dir name) as d. intros d.
    revert acc. induction IH as [|c cs Hc Hcs IHcs]; intros acc; simpl; auto.
    rewrite foldVisited_app, Hc.
    destruct (foldVisited config (visited d c) acc); auto.
  - simpl. destruct (jseqb name (js "myenv")); reflexivity.
  - reflexivity.
Qed.

Lemma scanDirectoryWith_visited : forall config dir es acc,
  scanDirectoryWith config dir es acc =
  foldVisited config (flat_map (visited dir) es) acc.
Proof.
  intros config dir es. unfold scanDirectoryWith.
  induction es as [|e es IH]; intros acc; simpl; auto.
  rewrite foldVisited_app, scanEntryWith_visited.
  destruct (foldVisited config (visited dir e) acc); auto.
Qed.

Lemma visited_pruneMyenv : forall e dir,
  visited dir (pruneMyenv e) = visited dir e.
Proof.
  intros e. induction e as [name content | name children IH | name | name]
    using entry_induction; intros dir; simpl; auto.
  destruct (jseqb name (js "myenv")) eqn:E; simpl; rewrite E; auto.
  generalize (pathJoin dir name) as d. intros d.
  induction IH as [|c cs Hc Hcs IHcs]; simpl; auto.
  now rewrite Hc, IHcs.
Qed.

Lemma foldVisited_thrown : forall config fs acc p,
  foldVisited config fs acc = Thrown p <-> firstUnreadable fs = Some p.
Proof.
  intros config fs. induction fs as [|[q [text|]] fs IH]; intros acc p; simpl.
  - split; discriminate.
  - apply IH.
  - split; congruence.
Qed.

Lemma foldVisited_returned : forall config fs acc,
  firstUnreadable fs = None ->
  exists pkgs, foldVisited config fs acc = Returned pkgs.
Proof.
  intros config fs. induction fs as [|[q [text|]] fs IH]; intros acc H; simpl.
  - now exists acc.
  - now apply IH.
  - discriminate.
Qed.

Lemma scanLineWith_In : forall config acc line p,
  In p (scanLineWith config acc line) <->
  In p acc \/ contributes config line p.
Proof.
  intros config acc line p. unfold scanLineWith, contributes.
  destruct (matchedPath line) as [path|].
  - destruct (truthy (firstSegment path)) eqn:T.
    + destruct (validUnder config (firstSegment path)) eqn:V.
      * rewrite setAdd_In. split.
        -- intros [->|H]; auto. right. now exists path.
        -- intros [H|[g [E [<- _]]]]; auto. left. congruence.
      * split; auto. intros [H|[g [E [<- V']]]]; auto.
        injection E as <-. congruence.
    + split; auto. intros [H|[g [E [<- V']]]]; auto.
      injection E as <-.
      apply validUnder_nameRegex, nameRegex_truthy in V'. congruence.
  - split; auto. intros [H|[g [E _]]]; auto. discriminate.
Qed.

Lemma scanContentWith_In : forall config acc text p,
  In p (scanContentWith config acc text) <->
  In p acc \/
  exists line, In line (split LF (cleanContent text)) /\
               contributes config line p.
Proof.
  intros config acc text p. unfold scanContentWith.
  generalize (split LF (cleanContent text)) as ls. intros ls. revert acc.
  induction ls as [|l ls IH]; intros acc; simpl.
  - split; auto. intros [H|[line [[] _]]]; auto.
  - rewrite IH, scanLineWith_In. split.
    + intros [[H|H]|[line [H1 H2]]]; auto.
      * right. exists l. auto.
      * right. exists line. auto.
    + intros [H|[line [[->|H1] H2]]]; auto.
      right. exists line. auto.
Qed.

Lemma foldVisited_In : forall config fs acc pkgs p,
  foldVisited config fs acc = Returned pkgs ->
  (In p pkgs <-> In p acc \/ discoveredIn config fs p).
Proof.
  intros config fs. unfold discoveredIn.
  induction fs as [|[q [text|]] fs IH]; intros acc pkgs p H; simpl in H.
  - injection H as <-. split; auto.
    intros [H|[path [text [line [[] _]]]]]; auto.
  - rewrite (IH _ _ p H), scanContentWith_In. split.
    + intros [[H1|[line [H1 H2]]]|[path [t [line [H1 H2]]]]]; auto.
      * right. exists q, text, line. split; [now left|auto].
      * right. exists path, t, line. split; [now right|auto].
    + intros [H1|[path [t [line [[E|H1] H2]]]]]; auto.
      * injection E as <- <-. left. right. exists line. auto.
      * right. exists path, t, line. auto.
  - discriminate.
Qed.

Lemma scanContentWith_NoDup : forall config text acc,
  NoDup acc -> NoDup (scanContentWith config acc text).
Proof.
  intros config text. unfold scanContentWith.
  generalize (split LF (cleanContent text)) as ls.
  induction ls as [|l ls IH]; intros acc H; simpl; auto.
  apply IH. unfold scanLineWith.
  destruct (matchedPath l); auto.
  destruct (truthy _); auto. destruct (validUnder _ _); auto.
  now apply setAdd_NoDup.
Qed.

Lemma foldVisited_NoDup : forall config fs acc pkgs,
  foldVisited config fs acc = Returned pkgs -> NoDup acc -> NoDup pkgs.
Proof.
  intros config fs. induction fs as [|[q [text|]] fs IH];
    intros acc pkgs H Hnd; simpl in H.
  - now injection H as <-.
  - eapply IH; eauto. now apply scanContentWith_NoDup.
  - discriminate.
Qed.

(** ** What [updateRequirementsTxt] computes *)

(** The call spelled out over the scan under the configuration in
    effect; [w1] is the world the scan leaves. *)
Lemma updateRequirementsTxt_run : forall projectPath w,
  exists w1, sameOrSettled w w1 /\
  updateRequirementsTxt projectPath w =
  match requirementsTxt w with
  | Unreadable => (ReadError, w)
  | file =>
      match scanDirectoryWith (configInEffect w) projectPath
              (projectTree w) [] with
      | Thrown p => (Rejected p, w1)
      | Returned importedPackages =>
          match newPackagesOf (existingPackagesOf file) importedPackages with
          | [] => (NoNewPackages, w1)
          | newPackages =>
              if writable w then
                (Updated newPackages,
                 setRequirementsTxt
                   (Readable (join LF
                      (updatedPackagesOf (existingPackagesOf file) newPackages)))
                   w1)
              else (WriteError newPackages, w1)
          end
      end
  end.
Proof.
  intros projectPath w.
  destruct (collectImportedPackages_run w projectPath) as [w1 [E H]].
  exists w1. split; auto.
  destruct (sameOrSettled_frame _ _ H) as [_ [_ [Hw _]]].
  unfold updateRequirementsTxt. rewrite E, Hw.
  destruct (requirementsTxt w); auto; simpl;
    destruct (scanDirectoryWith _ _ _ _); auto;
    destruct (newPackagesOf _ _); auto.
Qed.

Lemma imported_valid : forall config dir es pkgs p,
  scanDirectoryWith config dir es [] = Returned pkgs ->
  In p pkgs -> validUnder config p = true.
Proof.
  intros config dir es pkgs p H Hp.
  rewrite scanDirectoryWith_visited in H.
  apply (foldVisited_In _ _ _ _ p H) in Hp.
  destruct Hp as [[]|[path [text [line [_ [_ [g [_ [_ V]]]]]]]]]. exact V.
Qed.

Lemma newPackagesOf_In : forall existing imported p,
  In p (newPackagesOf existing imported) <->
  In p imported /\ ~ In p existing.
Proof.
  intros existing imported p. unfold newPackagesOf.
  rewrite filter_In, negb_true_iff, includes_not_In. tauto.
Qed.

Lemma newPackagesOf_nil : forall existing imported,
  newPackagesOf existing imported = [] <->
  forall p, In p imported -> In p existing.
Proof.
  intros existing imported. split.
  - intros H p Hp. destruct (includes existing p) eqn:E.
    + now apply includes_In.
    + apply includes_not_In in E.
      assert (Hin : In p (newPackagesOf existing imported))
        by (apply newPackagesOf_In; auto).
      rewrite H in Hin. destruct Hin.
  - intros H. destruct (newPackagesOf existing imported) as [|p l] eqn:E; auto.
    assert (Hin : In p (newPackagesOf existing imported))
      by (rewrite E; now left).
    apply newPackagesOf_In in Hin. destruct Hin as [H1 H2].
    exfalso. auto.
Qed.

Lemma updatedPackagesOf_In : forall existing new l,
  In l (updatedPackagesOf existing new) <-> In l existing \/ In l new.
Proof.
  intros existing new l. unfold updatedPackagesOf.
  now rewrite sort_In, setOf_In, in_app_iff.
Qed.

Lemma updatedPackagesOf_NoDup : forall existing new,
  NoDup (updatedPackagesOf existing new).
Proof. intros. apply sort_NoDup, setOf_NoDup. Qed.

Lemma updatedPackagesOf_Sorted : forall existing new,
  Sorted jsle (updatedPackagesOf existing new).
Proof. intros. apply sort_Sorted. Qed.

Lemma existingPackagesOf_lines : forall file,
  Forall noLF (existingPackagesOf file) /\
  Forall (fun l => truthy l = true) (existingPackagesOf file).
Proof.
  intros [|data|]; simpl; split; try constructor.
  - apply nonEmptyLines_noLF.
  - apply nonEmptyLines_truthy.
Qed.

(** What is written reads back as the list that was written. *)
Lemma updated_reads_back : forall config dir es imported file,
  scanDirectoryWith config dir es [] = Returned imported ->
  let new := newPackagesOf (existingPackagesOf file) imported in
  nonEmptyLines (join LF (updatedPackagesOf (existingPackagesOf file) new))
  = updatedPackagesOf (existingPackagesOf file) new.
Proof.
  intros config dir es imported file H new.
  destruct (existingPackagesOf_lines file) as [H1 H2].
  rewrite Forall_forall in H1, H2.
  assert (V : forall l, In l (updatedPackagesOf (existingPackagesOf file) new) ->
                        noLF l /\ truthy l = true).
  { intros l Hl. apply updatedPackagesOf_In in Hl. destruct Hl as [Hl|Hl].
    - split; auto.
    - apply newPackagesOf_In in Hl. destruct Hl as [Hl _].
      apply (imported_valid _ _ _ _ _ H), validUnder_nameRegex in Hl.
      split; [now apply nameRegex_noLF | now apply nameRegex_truthy]. }
  apply nonEmptyLines_join; apply Forall_forall; intros l Hl;
    now apply V.
Qed.

(** The call and [reconcileWith] agree, and the call leaves the tree, the
    write permission and the configuration in effect as they were. *)
Lemma updateRequirementsTxt_reconcileWith : forall projectPath w,
  let r := updateRequirementsTxt projectPath w in
  (fst r, requirementsTxt (snd r)) =
    reconcileWith (configInEffect w) projectPath (projectTree w)
      (requirementsTxt w) (writable w) /\
  projectTree (snd r) = projectTree w /\
  writable (snd r) = writable w /\
  configInEffect (snd r) = configInEffect w.
Proof.
  intros projectPath w.
  destruct (updateRequirementsTxt_run projectPath w) as [w1 [H E]].
  destruct (sameOrSettled_frame _ _ H) as [Ht [Hr [Hw Hc]]].
  cbv zeta. rewrite E. clear E. unfold reconcileWith.
  destruct (requirementsTxt w) eqn:R;
    [ | | simpl; repeat split; congruence ];
    (destruct (scanDirectoryWith _ _ _ _);
     [ destruct (newPackagesOf _ _); [|destruct (writable w)] | ]);
    simpl; repeat split; try congruence;
    (transitivity (configInEffect w1); [reflexivity | exact Hc]).
Qed.

Lemma reconcileWith_body : forall config projectPath tree file canWrite,
  file <> Unreadable ->
  reconcileWith config projectPath tree file canWrite =
  match scanDirectoryWith config projectPath tree [] with
  | Thrown p => (Rejected p, file)
  | Returned importedPackages =>
      match newPackagesOf (existingPackagesOf file) importedPackages with
      | [] => (NoNewPackages, file)
      | newPackages =>
          if canWrite then
            (Updated newPackages,
             Readable (join LF
               (updatedPackagesOf (existingPackagesOf file) newPackages)))
          else (WriteError newPackages, file)
      end
  end.
Proof.
  intros config projectPath tree [|data|] canWrite H; try reflexivity.
  congruence.
Qed.

Lemma reconcileWith_again : forall config projectPath tree file canWrite,
  let first := reconcileWith config projectPath tree file canWrite in
  let second := reconcileWith config projectPath tree (snd first) canWrite in
  snd second = snd first /\
  match fst first with
  | Updated _ | NoNewPackages => fst second = NoNewPackages
  | o => fst second = o
  end.
Proof.
  intros config projectPath tree file canWrite first second.
  assert (D : file = Unreadable \/ file <> Unreadable)
    by (destruct file; auto; right; discriminate).
  destruct D as [->|D]; [subst first second; simpl; auto|].
  pose proof (reconcileWith_body config projectPath tree file canWrite D) as B.
  destruct (scanDirectoryWith config projectPath tree []) as [imported|q] eqn:S.
  - destruct (newPackagesOf (existingPackagesOf file) imported)
      as [|n ns] eqn:N.
    + subst second. fold first in B. cbv zeta in B. rewrite B. cbn [fst snd].
      rewrite (reconcileWith_body _ _ _ _ _ D), S, N. auto.
    + destruct canWrite.
      * assert (F1 : existingPackagesOf
                       (Readable (join LF (updatedPackagesOf
                                             (existingPackagesOf file) (n :: ns))))
                     = updatedPackagesOf (existingPackagesOf file) (n :: ns)).
        { rewrite <- N. apply (updated_reads_back _ _ _ _ file S). }
        assert (F2 : newPackagesOf
                       (updatedPackagesOf (existingPackagesOf file) (n :: ns))
                       imported = []).
        { apply newPackagesOf_nil. intros p Hp. apply updatedPackagesOf_In.
          destruct (includes (existingPackagesOf file) p) eqn:I.
          - left. now apply includes_In.
          - right. rewrite <- N. apply newPackagesOf_In. split; auto.
            now apply includes_not_In. }
        subst second. fold first in B. cbv zeta in B. rewrite B.
        cbn [fst snd]. rewrite reconcileWith_body by discriminate.
        rewrite S, F1, F2. auto.
      * subst second. fold first in B. cbv zeta in B. rewrite B. cbn [fst snd].
        rewrite (reconcileWith_body _ _ _ _ _ D), S, N. auto.
  - subst second. fold first in B. cbv zeta in B. rewrite B. cbn [fst snd].
    rewrite (reconcileWith_body _ _ _ _ _ D), S. auto.
Qed.

(** The early return itself: when every discovered name equals a whole
    line of the manifest, nothing is written. *)
Lemma no_write_when_every_import_is_a_line : forall projectPath w pkgs,
  fst (collectImportedPackages projectPath w) = Returned pkgs ->
  requirementsTxt w <> Unreadable ->
  (forall p, In p pkgs -> In p (existingPackagesOf (requirementsTxt w))) ->
  fst (updateRequirementsTxt projectPath w) = NoNewPackages /\
  requirementsTxt (snd (updateRequirementsTxt projectPath w))
    = requirementsTxt w.
Proof.
  intros projectPath w pkgs H U Hall.
  destruct (collectImportedPackages_run w projectPath) as [w' [E _]].
  rewrite E in H. cbn [fst] in H.
  destruct (updateRequirementsTxt_reconcileWith projectPath w) as [R _].
  rewrite reconcileWith_body in R by exact U. rewrite H in R.
  apply newPackagesOf_nil in Hall. rewrite Hall in R.
  injection R as R1 R2. auto.
Qed.

(** ** The manifest pattern and package names *)

Lemma takeWhile_all : forall p s,
  forallb p s = true -> takeWhile p s = s /\ dropWhile p s = [].
Proof.
  intros p. induction s as [|c s IH]; simpl; auto.
  intros H. apply andb_true_iff in H. destruct H as [Hc Hs].
  rewrite Hc. destruct (IH Hs) as [-> ->]. auto.
Qed.

(** A name [isValidPackageName] accepts is a line the manifest pattern
    matches, as a bare name. *)
Lemma matchRequirement_name : forall p,
  nameRegex p = true -> matchRequirement p = Some (p, []).
Proof.
  intros p H. unfold nameRegex in H. apply andb_true_iff in H.
  destruct H as [T F]. unfold matchRequirement.
  destruct (takeWhile_all _ _ F) as [-> ->].
  destruct p; [discriminate|reflexivity].
Qed.

Lemma mapHas_mapSet : forall m k v k',
  mapHas (mapSet k v m) k' = jseqb k' k || mapHas m k'.
Proof.
  induction m as [|[k1 v1] m IH]; intros k v k'; simpl.
  - reflexivity.
  - destruct (jseqb k k1) eqn:E; simpl.
    + apply jseqb_eq in E. subst k1.
      destruct (jseqb k' k); reflexivity.
    + rewrite IH. destruct (jseqb k' k1), (jseqb k' k); reflexivity.
Qed.

(** The reader of the earlier variant has a key exactly for the names its
    pattern captures on some line: a line the pattern does not match adds
    nothing. *)
Lemma readManifest_has : forall content k,
  mapHas (readManifest content) k = true <->
  exists line v,
    In line (split LF content) /\ matchRequirement line = Some (k, v).
Proof.
  intros content k. unfold readManifest.
  assert (G : forall ls m,
    mapHas (fold_left
              (fun existingPackages line =>
                 match matchRequirement line with
                 | Some (packageName, version) =>
                     mapSet packageName version existingPackages
                 | None => existingPackages
                 end) ls m) k = true <->
    mapHas m k = true \/
    exists line v, In line ls /\ matchRequirement line = Some (k, v)).
  { induction ls as [|l ls IH]; intros m; simpl.
    - split; auto. intros [H|[line [v [[] _]]]]; auto.
    - rewrite IH. destruct (matchRequirement l) as [[n v]|] eqn:M.
      + rewrite mapHas_mapSet, orb_true_iff, jseqb_eq. split.
        * intros [[->|H]|[line [v' [H1 H2]]]]; auto.
          -- right. exists l, v. auto.
          -- right. exists line, v'. auto.
        * intros [H|[line [v' [[->|H1] H2]]]]; auto.
          -- left. left. congruence.
          -- right. exists line, v'. auto.
      + split.
        * intros [H|[line [v' [H1 H2]]]]; auto.
          right. exists line, v'. auto.
        * intros [H|[line [v' [[->|H1] H2]]]]; auto.
          -- congruence.
          -- right. exists line, v'. auto. }
  rewrite G. simpl. split.
  - intros [H|H]; [discriminate|exact H].
  - auto.
Qed.

Lemma updateRequirementsTxt_cache : forall projectPath w,
  globalProjectConfig (snd (updateRequirementsTxt projectPath w))
    = globalProjectConfig w \/
  globalProjectConfig (snd (updateRequirementsTxt projectPath w))
    = Some (configInEffect w).
Proof.
  intros projectPath w.
  destruct (updateRequirementsTxt_run projectPath w) as [w1 [H E]].
  rewrite E. clear E. pose proof (sameOrSettled_cache _ _ H) as C.
  cbv zeta.
  destruct (requirementsTxt w); auto;
    (destruct (scanDirectoryWith _ _ _ _);
     [ destruct (newPackagesOf _ _); [|destruct (writable w)] | ]);
    exact C.
Qed.

(** What a successful write puts in the file. *)
Lemma written_content : forall projectPath w newPackages,
  fst (updateRequirementsTxt projectPath w) = Updated newPackages ->
  exists importedPackages,
    scanDirectoryWith (configInEffect w) projectPath (projectTree w) []
      = Returned importedPackages /\
    newPackages
      = newPackagesOf (existingPackagesOf (requirementsTxt w))
          importedPackages /\
    requirementsTxt (snd (updateRequirementsTxt projectPath w))
      = Readable (join LF
          (updatedPackagesOf (existingPackagesOf (requirementsTxt w))
             newPackages)).
Proof.
  intros projectPath w newPackages H.
  destruct (updateRequirementsTxt_reconcileWith projectPath w) as [R _].
  rewrite H in R.
  assert (U : requirementsTxt w <> Unreadable).
  { intros E. rewrite E in R. discriminate. }
  rewrite reconcileWith_body in R by exact U.
  destruct (scanDirectoryWith _ _ _ _) as [imported|q] eqn:S;
    [|discriminate].
  exists imported. split; [reflexivity|].
  destruct (newPackagesOf (existingPackagesOf (requirementsTxt w)) imported)
    as [|n ns] eqn:N; [discriminate|].
  destruct (writable w); [|discriminate].
  injection R as R1 R2. subst newPackages. auto.
Qed.

Lemma same_inputs_same_outcome : forall projectPath w1 w2,
  projectTree w1 = projectTree w2 ->
  requirementsTxt w1 = requirementsTxt w2 ->
  writable w1 = writable w2 ->
  configInEffect w1 = configInEffect w2 ->
  fst (updateRequirementsTxt projectPath w1)
    = fst (updateRequirementsTxt projectPath w2) /\
  requirementsTxt (snd (updateRequirementsTxt projectPath w1))
    = requirementsTxt (snd (updateRequirementsTxt projectPath w2)).
Proof.
  intros projectPath w1 w2 T R W C.
  destruct (updateRequirementsTxt_reconcileWith projectPath w1) as [E1 _].
  destruct (updateRequirementsTxt_reconcileWith projectPath w2) as [E2 _].
  rewrite T, R, W, C, <- E2 in E1. injection E1 as -> ->. auto.
Qed.

(** ** Normalisation *)






























(* ================================================================== *)
(** * The claims *)

(** C1.  Scenario C on the code: the manifest pins [numpy==1.21.0] and the
    scan discovers [numpy] and [requests].  [updateRequirementsTxt] looks
    each discovered name up among the raw lines, finds no line equal to
    [numpy], and writes [numpy], [numpy==1.21.0], [requests]: the package
    [numpy] is now listed twice, once without its pin, instead of the two
    entries [numpy==1.21.0] and [requests].  The earlier variant, which
    looks names up in the parsed manifest, appends [requests] alone. *)
Theorem C1_scenarioC_lists_numpy_twice :
  fst (collectImportedPackages root scenarioC)
    = Returned [js "numpy"; js "requests"] /\
  fst (updateRequirementsTxt root scenarioC)
    = Updated [js "numpy"; js "requests"] /\
  requirementsTxt (snd (updateRequirementsTxt root scenarioC))
    = Readable (join LF [js "numpy"; js "numpy==1.21.0"; js "requests"]) /\
  map requirementName
      (existingPackagesOf
         (requirementsTxt (snd (updateRequirementsTxt root scenarioC))))
    = [js "numpy"; js "numpy"; js "requests"] /\
  appendMissing (js "numpy==1.21.0" ++ [LF]) [js "numpy"; js "requests"]
    = join LF [js "numpy==1.21.0"; js "requests"; []].
Proof. by_evaluation. Qed.

(** C2.  Every name the scan returns is the first dot-separated segment of
    the path captured by the [import] or the [from ... import] pattern on
    a line of a scanned file, contains no dot, and is not one of the
    [standardLibModules] of the configuration in effect; a file with
    [import os], [import requests] and
    [from sklearn.linear_model import LinearRegression] yields
    [requests] and [sklearn], and a file that imports [os] and [json] in
    both forms yields nothing. *)
Theorem C2_discovered_names :
  (forall projectPath w pkgs,
     fst (collectImportedPackages projectPath w) = Returned pkgs ->
     forall p, In p pkgs ->
       discoveredIn (configInEffect w)
         (flat_map (visited projectPath) (projectTree w)) p /\
       ~ In DOT p /\
       forall mods,
         standardLibModules (configInEffect w) = Some mods -> ~ In p mods) /\
  fst (collectImportedPackages root scenarioB)
    = Returned [js "requests"; js "sklearn"] /\
  fst (collectImportedPackages root standardBothForms) = Returned [].
Proof.
  split; [|by_evaluation].
  intros projectPath w pkgs H p Hp.
  destruct (collectImportedPackages_run w projectPath) as [w' [E _]].
  rewrite E in H. simpl in H.
  pose proof (imported_valid _ _ _ _ _ H Hp) as V.
  rewrite scanDirectoryWith_visited in H.
  apply (foldVisited_In _ _ _ _ p H) in Hp.
  destruct Hp as [[]|Hp]. split; [exact Hp|]. split.
  - intros Hdot. apply validUnder_nameRegex in V.
    pose proof (nameRegex_chars _ _ V Hdot) as C. discriminate C.
  - intros mods Hm. eapply validUnder_not_standard; eauto.
Qed.

Lemma C2_discovered_names_witness :
  ~ In (js "requests")
      (match standardLibModules defaultConfig with
       | Some mods => mods
       | None => []
       end).
Proof.
  destruct (proj1 C2_discovered_names root scenarioB
              [js "requests"; js "sklearn"] eq_refl
              (js "requests") (or_introl eq_refl)) as [_ [_ H]].
  exact (H _ eq_refl).
Defined.




(** C4.  The scan never enters a directory called [myenv]: scanning such
    an entry returns at once with the set as it was, reads nothing and
    cannot fail, whatever lies below it; and anywhere in a tree, emptying
    every [myenv] directory changes neither the result of the scan nor the
    world it leaves. *)
Theorem C4_myenv_is_not_scanned :
  (forall dir acc children w,
     scanEntry dir acc (Dir (js "myenv") children) w = (Returned acc, w)) /\
  (forall es dir acc w,
     scanDirectory dir (map pruneMyenv es) acc w = scanDirectory dir es acc w) /\
  fst (collectImportedPackages root withMyenv) = Returned [js "requests"].
Proof.
  split; [|split]; [reflexivity| |vm_compute; reflexivity].
  assert (He : forall e dir acc w,
             scanEntry dir acc (pruneMyenv e) w = scanEntry dir acc e w).
  { intros e. induction e as [name content | name children IH | name | name]
      using entry_induction; intros dir acc w; try reflexivity.
    simpl pruneMyenv. destruct (jseqb name (js "myenv")) eqn:E.
    - rewrite !scanEntry_Dir, E. reflexivity.
    - rewrite !scanEntry_Dir, E. unfold scanDirectory.
      generalize (pathJoin dir name) as d. intros d. revert acc w.
      induction IH as [|c cs Hc Hcs IHcs]; intros acc w; simpl; auto.
      unfold bind. rewrite Hc.
      destruct (scanEntry d acc c w) as [[acc'|p] w']; auto. }
  intros es dir. unfold scanDirectory.
  induction es as [|e es IH]; intros acc w; simpl; auto.
  unfold bind. rewrite He.
  destruct (scanEntry dir acc e w) as [[acc'|p] w']; auto.
Qed.




(** C6 on the code.  The manifest starts with the line
    [# pinned by hand], which the pattern does not match.
    [updateRequirementsTxt] of [extension.ts] has no pattern: its read
    keeps the line as an element of [existingPackages], and the update
    writes it back among the packages.  The reader of the earlier variant,
    which has the pattern, leaves the line out as the claim says: the
    parsed manifest has the one key [numpy], and the merge appends
    [requests] under the untouched comment. *)
Theorem C6_unmatched_line_is_an_entry :
  matchRequirement (js "# pinned by hand") = None /\
  existingPackagesOf (requirementsTxt handEdited)
    = [js "# pinned by hand"; js "numpy"] /\
  fst (updateRequirementsTxt root handEdited) = Updated [js "requests"] /\
  requirementsTxt (snd (updateRequirementsTxt root handEdited))
    = Readable (join LF [js "# pinned by hand"; js "numpy"; js "requests"]) /\
  readManifest (join LF [js "# pinned by hand"; js "numpy"; []])
    = [(js "numpy", [])] /\
  mapHas (readManifest (join LF [js "# pinned by hand"; js "numpy"; []]))
    (js "# pinned by hand") = false /\
  appendMissing (join LF [js "# pinned by hand"; js "numpy"; []])
    [js "requests"]
    = join LF [js "# pinned by hand"; js "numpy"; js "requests"; []].
Proof. by_evaluation. Qed.

(** C7, as the code has it.  A source file that cannot be read is not
    skipped: [readFileSync] throws inside [scanDirectory], nothing catches
    it there, and the whole discovery is lost.  With [a.py] unreadable and
    [b.py] importing [requests], the scan throws at [a.py] and the update
    is rejected, where skipping [a.py] would have found [requests]. *)
Lemma C7_read_error_is_not_skipped :
  fst (collectImportedPackages root oneUnreadable)
    = Thrown (js "/work/demo/a.py") /\
  fst (collectImportedPackages root withoutUnreadable)
    = Returned [js "requests"] /\
  fst (collectImportedPackages root oneUnreadable)
    <> fst (collectImportedPackages root withoutUnreadable) /\
  fst (updateRequirementsTxt root oneUnreadable)
    = Rejected (js "/work/demo/a.py") /\
  requirementsTxt (snd (updateRequirementsTxt root oneUnreadable)) = Missing.
Proof. repeat split; vm_compute; try reflexivity; discriminate. Qed.

(** C7, amended.  A read error on one file during the scan is not
    recovered.  Whenever the scan comes to a file that [readFileSync]
    cannot read (or to an entry that [statSync], or a directory that
    [readdirSync], fails on), [collectImportedPackages] throws and returns
    no package; [updateRequirementsTxt] then ends rejected (the failure is
    not silent), or with the read error of an unreadable manifest, and
    leaves the manifest as it was.  With the configuration in the cache,
    the exception is the one of the first such entry in the order of the
    scan, and the call changes nothing at all. *)
Theorem C7_read_error_aborts_the_scan :
  (forall projectPath w p,
     firstUnreadable (flat_map (visited projectPath) (projectTree w)) = Some p ->
     (exists q, fst (collectImportedPackages projectPath w) = Thrown q) /\
     match requirementsTxt w with
     | Unreadable => fst (updateRequirementsTxt projectPath w) = ReadError
     | _ => exists q, fst (updateRequirementsTxt projectPath w) = Rejected q
     end /\
     requirementsTxt (snd (updateRequirementsTxt projectPath w))
       = requirementsTxt w) /\
  (forall projectPath w c p,
     globalProjectConfig w = Some c ->
     firstUnreadable (flat_map (visited projectPath) (projectTree w)) = Some p ->
     collectImportedPackages projectPath w = (Thrown p, w) /\
     updateRequirementsTxt projectPath w =
       (match requirementsTxt w with
        | Unreadable => ReadError
        | _ => Rejected p
        end, w)).
Proof.
  assert (S : forall projectPath w p,
    firstUnreadable (flat_map (visited projectPath) (projectTree w)) = Some p ->
    scanDirectoryWith (configInEffect w) projectPath (projectTree w) []
      = Thrown p).
  { intros projectPath w p F. rewrite scanDirectoryWith_visited.
    now apply foldVisited_thrown. }
  split.
  - intros projectPath w p F.
    destruct (collectImportedPackages_run w projectPath) as [w' [E _]].
    destruct (updateRequirementsTxt_reconcileWith projectPath w) as [R _].
    rewrite E. cbn [fst]. rewrite (S _ _ _ F).
    split; [now exists p|].
    unfold reconcileWith in R. rewrite (S _ _ _ F) in R.
    destruct (requirementsTxt w); injection R as R1 R2;
      (split; [|exact R2]); try exact R1; now exists p.
  - intros projectPath w c p C F.
    destruct (collectImportedPackages_run w projectPath) as [w' [E H]].
    destruct (updateRequirementsTxt_run projectPath w) as [w1 [H1 E1]].
    assert (W : forall v, sameOrSettled w v -> v = w).
    { intros v [->| ->]; [reflexivity|].
      now apply settle_when_cached with c. }
    rewrite (W _ H) in E. rewrite (W _ H1) in E1.
    rewrite (S _ _ _ F) in E, E1. split; [exact E|].
    rewrite E1. now destruct (requirementsTxt w).
Qed.

Lemma C7_read_error_aborts_the_scan_witness :
  (exists q, fst (collectImportedPackages root withLockedDirectory) = Thrown q) /\
  (exists q, fst (updateRequirementsTxt root withLockedDirectory) = Rejected q) /\
  requirementsTxt (snd (updateRequirementsTxt root withLockedDirectory))
    = requirementsTxt withLockedDirectory.
Proof.
  apply (proj1 C7_read_error_aborts_the_scan root withLockedDirectory
           (js "/work/demo/private")).
  vm_compute. reflexivity.
Defined.

(** C8.  A second call straight after a first one that ran to the end
    (it wrote the manifest, or found nothing to add) finds nothing to add,
    and no second call changes the manifest; after a call that failed, the
    second fails the same way. *)
Theorem C8_second_call_adds_nothing : forall projectPath w,
  let first := updateRequirementsTxt projectPath w in
  let second := updateRequirementsTxt projectPath (snd first) in
  requirementsTxt (snd second) = requirementsTxt (snd first) /\
  match fst first with
  | Updated _ | NoNewPackages => fst second = NoNewPackages
  | o => fst second = o
  end.
Proof.
  intros projectPath w first second.
  destruct (updateRequirementsTxt_reconcileWith projectPath w)
    as [R1 [T1 [W1 C1]]].
  destruct (updateRequirementsTxt_reconcileWith projectPath (snd first))
    as [R2 _].
  fold first in R1, T1, W1, C1. fold second in R2.
  rewrite T1, W1, C1 in R2.
  pose proof (reconcileWith_again (configInEffect w) projectPath
                (projectTree w) (requirementsTxt w) (writable w)) as A.
  cbv zeta in A. rewrite <- R1 in A. cbn [fst snd] in A.
  rewrite <- R2 in A. cbn [fst snd] in A. exact A.
Qed.

(** C9, as the code has it.  [beforeOther] and [afterOther] are the same
    project, manifest and files on disk; in [afterOther] an earlier
    invocation for [otherRoot] has filled [globalProjectConfig] from the
    configuration file of that other project.  The same call of
    [updateRequirementsTxt] adds [requests] in the one and nothing in the
    other. *)
Lemma C9_earlier_invocation_changes_the_outcome :
  projectTree afterOther = projectTree beforeOther /\
  requirementsTxt afterOther = requirementsTxt beforeOther /\
  configFiles afterOther = configFiles beforeOther /\
  writable afterOther = writable beforeOther /\
  globalProjectConfig afterOther = Some otherConfig /\
  fst (updateRequirementsTxt root beforeOther) = Updated [js "requests"] /\
  fst (updateRequirementsTxt root afterOther) = NoNewPackages.
Proof. by_evaluation. Qed.

(** C9, amended.  The extension keeps one piece of state across
    invocations: [globalProjectConfig], filled by the first call of
    [getProjectConfig], for whatever project path that call was made, and
    never reloaded.  The outcome of a reconciliation and the manifest it
    leaves are a function of the project tree, the manifest, whether it
    can be written, and the configuration in effect, which is the cached
    one whenever there is one; the call leaves a filled cache as it is. *)
Theorem C9_outcome_depends_on_the_cached_configuration :
  (forall projectPath w1 w2,
     projectTree w1 = projectTree w2 ->
     requirementsTxt w1 = requirementsTxt w2 ->
     writable w1 = writable w2 ->
     configInEffect w1 = configInEffect w2 ->
     fst (updateRequirementsTxt projectPath w1)
       = fst (updateRequirementsTxt projectPath w2) /\
     requirementsTxt (snd (updateRequirementsTxt projectPath w1))
       = requirementsTxt (snd (updateRequirementsTxt projectPath w2))) /\
  (forall w c, globalProjectConfig w = Some c -> configInEffect w = c) /\
  (forall projectPath w c,
     globalProjectConfig w = Some c ->
     globalProjectConfig (snd (updateRequirementsTxt projectPath w)) = Some c) /\
  (forall anyPath w,
     globalProjectConfig w = None ->
     globalProjectConfig (snd (getProjectConfig anyPath w)) =
       Some (match lookupConfig (getConfigFilePath w anyPath) (configFiles w)
             with
             | Some c => c
             | None => defaultConfig
             end)).
Proof.
  split; [exact same_inputs_same_outcome|]. split; [|split].
  - intros w c H. unfold configInEffect. now rewrite H.
  - intros projectPath w c H.
    destruct (updateRequirementsTxt_cache projectPath w) as [E|E];
      rewrite E; auto.
    unfold configInEffect. now rewrite H.
  - intros anyPath w H. unfold getProjectConfig, bind, loadProjectConfig.
    rewrite H.
    destruct (lookupConfig (getConfigFilePath w anyPath) (configFiles w));
      reflexivity.
Qed.

Lemma C9_outcome_depends_on_the_cached_configuration_witness :
  globalProjectConfig (snd (updateRequirementsTxt root afterOther))
    = Some otherConfig.
Proof.
  apply (proj1 (proj2 (proj2 C9_outcome_depends_on_the_cached_configuration))
           root afterOther otherConfig).
  vm_compute. reflexivity.
Defined.

(** C10 on the code.  The manifest pins [numpy==1.21.0] and the sources
    import [numpy] alone, so no discovered package is missing from the
    manifest (the parsed manifest has the key [numpy]).  The call still
    writes: [numpy] equals no raw line, counts as new, and the file
    becomes [numpy], [numpy==1.21.0]. *)
Theorem C10_pinned_package_rewrites_the_manifest :
  fst (collectImportedPackages root pinnedOnly) = Returned [js "numpy"] /\
  mapHas (readManifest (js "numpy==1.21.0" ++ [LF])) (js "numpy") = true /\
  fst (updateRequirementsTxt root pinnedOnly) = Updated [js "numpy"] /\
  requirementsTxt pinnedOnly = Readable (js "numpy==1.21.0" ++ [LF]) /\
  requirementsTxt (snd (updateRequirementsTxt root pinnedOnly))
    = Readable (join LF [js "numpy"; js "numpy==1.21.0"]).
Proof. by_evaluation. Qed.

(* ================================================================== *)
(** * Further properties of the code *)

(** ** The scan *)

Lemma scanDirectory_run : forall w dir es acc,
  exists w',
    scanDirectory dir es acc w =
      (scanDirectoryWith (configInEffect w) dir es acc, w')
    /\ sameOrSettled w w'.
Proof.
  intros w dir es acc. unfold scanDirectory.
  apply forEachM_runsTo.
  - apply Forall_forall. intros e _ d a. apply scanEntry_runsTo.
  - apply sameOrSettled_refl.
Qed.

(** X1.  [collectImportedPackages] returns every package once, however
    often and in however many files it is imported. *)
Theorem X1_discovered_without_duplicates : forall projectPath w pkgs,
  fst (collectImportedPackages projectPath w) = Returned pkgs -> NoDup pkgs.
Proof.
  intros projectPath w pkgs H.
  destruct (collectImportedPackages_run w projectPath) as [w' [E _]].
  rewrite E in H. cbn [fst] in H.
  rewrite scanDirectoryWith_visited in H.
  eapply foldVisited_NoDup; [exact H | constructor].
Qed.

Lemma X1_discovered_without_duplicates_witness :
  NoDup [js "requests"; js "sklearn"].
Proof.
  apply (X1_discovered_without_duplicates root scenarioB). reflexivity.
Defined.

(** X2.  Nothing valid is missed: when the scan returns, every line of
    the normalised content of every visited file on which one of the two
    patterns captures a path whose first segment [isValidPackageName]
    accepts has that segment in the result. *)
Theorem X2_every_valid_import_is_discovered :
  forall projectPath w pkgs file text line path,
  fst (collectImportedPackages projectPath w) = Returned pkgs ->
  In (file, Some text) (flat_map (visited projectPath) (projectTree w)) ->
  In line (split LF (cleanContent text)) ->
  matchedPath line = Some path ->
  validUnder (configInEffect w) (firstSegment path) = true ->
  In (firstSegment path) pkgs.
Proof.
  intros projectPath w pkgs file text line path H Hf Hl Hm Hv.
  destruct (collectImportedPackages_run w projectPath) as [w' [E _]].
  rewrite E in H. cbn [fst] in H.
  rewrite scanDirectoryWith_visited in H.
  apply (foldVisited_In _ _ _ _ (firstSegment path) H). right.
  exists file, text, line. split; [exact Hf|]. split; [exact Hl|].
  exists path. auto.
Qed.

Lemma X2_every_valid_import_is_discovered_witness :
  In (firstSegment (js "sklearn.linear_model"))
     [js "requests"; js "sklearn"].
Proof.
  apply (X2_every_valid_import_is_discovered root scenarioB
           [js "requests"; js "sklearn"]
           (js "/work/demo/main.py")
           (join LF [ js "import os"; js "import requests";
                      js "from sklearn.linear_model import LinearRegression";
                      [] ])
           (js "from sklearn.linear_model import LinearRegression")
           (js "sklearn.linear_model")).
  - reflexivity.
  - vm_compute. left. reflexivity.
  - vm_compute. right. right. left. reflexivity.
  - reflexivity.
  - reflexivity.
Defined.

(** X3.  A discovered name is never empty, is made of letters, digits,
    [_] and [-] only, and read as a manifest line by the pattern of the
    earlier variant it is that very name with no version: what the scan
    finds can be written to the manifest and read back. *)
Theorem X3_discovered_names_are_manifest_lines : forall projectPath w pkgs p,
  fst (collectImportedPackages projectPath w) = Returned pkgs ->
  In p pkgs ->
  p <> [] /\
  (forall c, In c p -> isNameChar c = true) /\
  matchRequirement p = Some (p, []).
Proof.
  intros projectPath w pkgs p H Hp.
  destruct (collectImportedPackages_run w projectPath) as [w' [E _]].
  rewrite E in H. cbn [fst] in H.
  pose proof (imported_valid _ _ _ _ _ H Hp) as V.
  apply validUnder_nameRegex in V. split; [|split].
  - apply nameRegex_truthy in V. destruct p; [discriminate|congruence].
  - intros c Hc. eapply nameRegex_chars; eauto.
  - now apply matchRequirement_name.
Qed.

Lemma X3_discovered_names_are_manifest_lines_witness :
  js "sklearn" <> [] /\
  (forall c, In c (js "sklearn") -> isNameChar c = true) /\
  matchRequirement (js "sklearn") = Some (js "sklearn", []).
Proof.
  apply (X3_discovered_names_are_manifest_lines root scenarioB
           [js "requests"; js "sklearn"]).
  - reflexivity.
  - right. left. reflexivity.
Defined.


Lemma firstUnreadable_None : forall fs,
  firstUnreadable fs = None <->
  forall p content, In (p, content) fs -> content <> None.
Proof.
  induction fs as [|[q [text|]] fs IH]; simpl.
  - split; [intros _ p content []|reflexivity].
  - rewrite IH. split.
    + intros H p content [E|Hin]; [injection E as <- <-; discriminate|eauto].
    + intros H p content Hin. eapply H. right. exact Hin.
  - split; [discriminate|]. intros H. exfalso.
    apply (H q None); auto.
Qed.

Lemma foldVisited_Returned_readable : forall config fs acc pkgs,
  foldVisited config fs acc = Returned pkgs -> firstUnreadable fs = None.
Proof.
  intros config fs acc pkgs H.
  destruct (firstUnreadable fs) as [q|] eqn:F; auto.
  apply (foldVisited_thrown config fs acc q) in F. congruence.
Qed.

(** Two scans over the same files in another order find the same
    packages. *)
Lemma foldVisited_Permutation : forall config fs fs' pkgs,
  Permutation fs fs' ->
  foldVisited config fs [] = Returned pkgs ->
  exists pkgs',
    foldVisited config fs' [] = Returned pkgs' /\
    forall p, In p pkgs <-> In p pkgs'.
Proof.
  intros config fs fs' pkgs P H.
  assert (R : firstUnreadable fs' = None).
  { apply firstUnreadable_None. intros p content Hin.
    apply foldVisited_Returned_readable in H.
    rewrite firstUnreadable_None in H. apply (H p).
    eapply Permutation_in; [symmetry; exact P | exact Hin]. }
  destruct (foldVisited_returned config fs' [] R) as [pkgs' H'].
  exists pkgs'. split; auto. intros p.
  rewrite (foldVisited_In _ _ _ _ p H), (foldVisited_In _ _ _ _ p H').
  unfold discoveredIn. split; intros [[]|[path [text [line [Hin Hr]]]]];
    right; exists path, text, line; split; auto;
    eapply Permutation_in; try exact Hin; auto. symmetry. exact P.
Qed.

(** X5.  The order in which [readdirSync] lists a directory does not
    change what is found: when the scan of a listing returns, the scan of
    any reordering of it returns the same packages, up to their order. *)
Theorem X5_listing_order_does_not_matter : forall dir es es' w pkgs,
  Permutation es es' ->
  fst (scanDirectory dir es [] w) = Returned pkgs ->
  exists pkgs',
    fst (scanDirectory dir es' [] w) = Returned pkgs' /\
    Permutation pkgs pkgs'.
Proof.
  intros dir es es' w pkgs P H.
  destruct (scanDirectory_run w dir es []) as [w1 [E1 _]].
  destruct (scanDirectory_run w dir es' []) as [w2 [E2 _]].
  rewrite E1 in H. rewrite E2. cbn [fst] in *.
  rewrite scanDirectoryWith_visited in *.
  destruct (foldVisited_Permutation (configInEffect w) _
              (flat_map (visited dir) es') pkgs
              (Permutation_flat_map (visited dir) P) H) as [pkgs' [H' M]].
  exists pkgs'. split; auto.
  apply NoDup_Permutation; auto.
  - eapply foldVisited_NoDup; [exact H | constructor].
  - eapply foldVisited_NoDup; [exact H' | constructor].
Qed.

Lemma X5_listing_order_does_not_matter_witness :
  exists pkgs',
    fst (scanDirectory root
           [ sourceFile "b.py" [ js "import requests" ];
             sourceFile "a.py" [ js "import numpy" ] ] [] scenarioB)
      = Returned pkgs' /\
    Permutation [js "numpy"; js "requests"] pkgs'.
Proof.
  apply (X5_listing_order_does_not_matter root
           [ sourceFile "a.py" [ js "import numpy" ];
             sourceFile "b.py" [ js "import requests" ] ]).
  - apply perm_swap.
  - reflexivity.
Defined.

(** ** The written manifest *)

Lemma jsleb_trans : forall a b c,
  jsleb a b = true -> jsleb b c = true -> jsleb a c = true.
Proof.
  induction a as [|x a IH]; intros [|y b] [|z c]; simpl; auto;
    try discriminate.
  destruct (N.ltb_spec x y), (N.eqb_spec x y), (N.ltb_spec y z),
    (N.eqb_spec y z), (N.ltb_spec x z), (N.eqb_spec x z);
    try lia; try discriminate; auto.
  apply IH.
Qed.

Lemma Sorted_jsle_head : forall a l x,
  Sorted jsle (a :: l) -> In x l -> jsle a x.
Proof.
  intros a l x H Hin.
  apply Sorted_StronglySorted in H.
  - inversion H as [|? ? _ F]; subst. rewrite Forall_forall in F. auto.
  - intros u v t. apply jsleb_trans.
Qed.

(** A sorted list without duplicates is determined by its elements. *)
Lemma Sorted_unique : forall l1 l2,
  Sorted jsle l1 -> Sorted jsle l2 -> NoDup l1 -> NoDup l2 ->
  (forall x, In x l1 <-> In x l2) -> l1 = l2.
Proof.
  induction l1 as [|a l1 IH]; intros [|b l2] S1 S2 N1 N2 M.
  - reflexivity.
  - exfalso. apply (M b). now left.
  - exfalso. apply (M a). now left.
  - assert (E : a = b).
    { destruct (proj1 (M a) (or_introl eq_refl)) as [E|Ha]; [auto|].
      destruct (proj2 (M b) (or_introl eq_refl)) as [E|Hb]; [auto|].
      apply jsleb_antisym.
      - apply (Sorted_jsle_head a l1 b S1 Hb).
      - apply (Sorted_jsle_head b l2 a S2 Ha). }
    subst b. f_equal.
    inversion S1; inversion S2; inversion N1; inversion N2; subst.
    apply IH; auto. intros x. split; intros Hx.
    + destruct (proj1 (M x) (or_intror Hx)) as [E|H']; auto.
      subst x. contradiction.
    + destruct (proj2 (M x) (or_intror Hx)) as [E|H']; auto.
      subst x. contradiction.
Qed.

Lemma updatedPackagesOf_canonical : forall ex1 new1 ex2 new2,
  (forall l, In l ex1 \/ In l new1 <-> In l ex2 \/ In l new2) ->
  updatedPackagesOf ex1 new1 = updatedPackagesOf ex2 new2.
Proof.
  intros ex1 new1 ex2 new2 M. apply Sorted_unique.
  - apply updatedPackagesOf_Sorted.
  - apply updatedPackagesOf_Sorted.
  - apply updatedPackagesOf_NoDup.
  - apply updatedPackagesOf_NoDup.
  - intros x. now rewrite !updatedPackagesOf_In.
Qed.

Lemma updated_has_new_packages : forall projectPath w newPackages,
  fst (updateRequirementsTxt projectPath w) = Updated newPackages ->
  newPackages <> [] /\ writable w = true /\ requirementsTxt w <> Unreadable.
Proof.
  intros projectPath w newPackages H.
  destruct (updateRequirementsTxt_reconcileWith projectPath w) as [R _].
  rewrite H in R.
  assert (U : requirementsTxt w <> Unreadable).
  { intros E. rewrite E in R. discriminate. }
  rewrite reconcileWith_body in R by exact U.
  destruct (scanDirectoryWith _ _ _ _); [|discriminate].
  destruct (newPackagesOf _ _); [discriminate|].
  destruct (writable w); [|discriminate].
  injection R as R1 R2. subst newPackages. repeat split; auto. discriminate.
Qed.

(** X6.  The written manifest is canonical.  Take two states of a project
    with the same configuration in effect whose directory listings are
    reorderings of each other and whose manifests have the same non-empty
    lines, in any order and with any repetitions or blank lines.  If the
    update writes in the first it writes in the second, and the two files
    are then identical. *)
Theorem X6_written_manifest_is_canonical : forall projectPath w1 w2 new1,
  configInEffect w1 = configInEffect w2 ->
  Permutation (projectTree w1) (projectTree w2) ->
  (forall l, In l (existingPackagesOf (requirementsTxt w1)) <->
             In l (existingPackagesOf (requirementsTxt w2))) ->
  requirementsTxt w2 <> Unreadable ->
  writable w2 = true ->
  fst (updateRequirementsTxt projectPath w1) = Updated new1 ->
  exists new2,
    fst (updateRequirementsTxt projectPath w2) = Updated new2 /\
    requirementsTxt (snd (updateRequirementsTxt projectPath w2))
      = requirementsTxt (snd (updateRequirementsTxt projectPath w1)).
Proof.
  intros projectPath w1 w2 new1 C P L U W H.
  destruct (written_content projectPath w1 new1 H) as [imp1 [S1 [N1 E1]]].
  destruct (updated_has_new_packages projectPath w1 new1 H) as [Hne _].
  rewrite scanDirectoryWith_visited in S1.
  destruct (foldVisited_Permutation (configInEffect w1) _
              (flat_map (visited projectPath) (projectTree w2)) imp1
              (Permutation_flat_map (visited projectPath) P) S1)
    as [imp2 [S2 M]].
  set (ex1 := existingPackagesOf (requirementsTxt w1)) in *.
  set (ex2 := existingPackagesOf (requirementsTxt w2)) in *.
  assert (Mn : forall p, In p new1 <-> In p (newPackagesOf ex2 imp2)).
  { intros p. subst new1. rewrite !newPackagesOf_In, M, L. tauto. }
  destruct (updateRequirementsTxt_reconcileWith projectPath w2) as [R _].
  rewrite reconcileWith_body in R by exact U.
  rewrite scanDirectoryWith_visited, <- C, S2, W in R. fold ex2 in R.
  destruct (newPackagesOf ex2 imp2) as [|n ns] eqn:N2.
  - exfalso. destruct new1 as [|a new1]; [congruence|].
    apply (proj1 (Mn a)). now left.
  - injection R as R1 R2. exists (n :: ns). split; [exact R1|].
    rewrite R2, E1. f_equal. f_equal.
    apply updatedPackagesOf_canonical. intros l.
    rewrite (L l), (Mn l). tauto.
Qed.

Lemma X6_written_manifest_is_canonical_witness :
  exists new2,
    fst (updateRequirementsTxt root listedOtherWay) = Updated new2 /\
    requirementsTxt (snd (updateRequirementsTxt root listedOtherWay))
      = requirementsTxt (snd (updateRequirementsTxt root listedOneWay)).
Proof.
  apply (X6_written_manifest_is_canonical root listedOneWay listedOtherWay
           [js "requests"; js "flask"]).
  - reflexivity.
  - apply perm_swap.
  - intros l. vm_compute. tauto.
  - discriminate.
  - reflexivity.
  - reflexivity.
Defined.




Lemma setOf_of_NoDup : forall arr s,
  NoDup (s ++ arr) -> fold_left (fun s x => setAdd x s) arr s = s ++ arr.
Proof.
  induction arr as [|a arr IH]; intros s H; simpl.
  - now rewrite app_nil_r.
  - assert (Ha : ~ In a s).
    { apply NoDup_remove_2 in H. intros Hin. apply H.
      apply in_or_app. now left. }
    unfold setAdd at 2. apply includes_not_In in Ha. rewrite Ha.
    rewrite IH; rewrite <- app_assoc; [reflexivity|exact H].
Qed.

Lemma newPackagesOf_nothing_existing : forall imported,
  newPackagesOf [] imported = imported.
Proof.
  intros imported. unfold newPackagesOf. apply filter_all.
  apply Forall_forall. intros p _. reflexivity.
Qed.

(** X8.  With no [requirements.txt] in the project, the file is created
    only if something was discovered: a project without external imports
    ends with no manifest at all, and otherwise the new file holds the
    discovered names in sorted order. *)
Theorem X8_missing_manifest : forall projectPath w pkgs,
  requirementsTxt w = Missing ->
  writable w = true ->
  fst (collectImportedPackages projectPath w) = Returned pkgs ->
  let r := updateRequirementsTxt projectPath w in
  match pkgs with
  | [] => fst r = NoNewPackages /\ requirementsTxt (snd r) = Missing
  | _ => fst r = Updated pkgs /\
         requirementsTxt (snd r) = Readable (join LF (sort pkgs))
  end.
Proof.
  intros projectPath w pkgs Hm Hw H r.
  destruct (collectImportedPackages_run w projectPath) as [w' [E _]].
  rewrite E in H. cbn [fst] in H.
  assert (Nd : NoDup pkgs).
  { rewrite scanDirectoryWith_visited in H.
    eapply foldVisited_NoDup; [exact H | constructor]. }
  destruct (updateRequirementsTxt_reconcileWith projectPath w) as [R _].
  fold r in R. rewrite Hm, Hw in R. unfold reconcileWith in R.
  rewrite H in R. simpl existingPackagesOf in R.
  rewrite newPackagesOf_nothing_existing in R.
  destruct pkgs as [|p pkgs]; injection R as R1 R2; split; auto.
  rewrite R2. unfold updatedPackagesOf, setOf.
  rewrite setOf_of_NoDup by exact Nd. reflexivity.
Qed.

Lemma X8_missing_manifest_witness :
  fst (updateRequirementsTxt root scenarioB)
    = Updated [js "requests"; js "sklearn"] /\
  requirementsTxt (snd (updateRequirementsTxt root scenarioB))
    = Readable (join LF (sort [js "requests"; js "sklearn"])).
Proof.
  apply (X8_missing_manifest root scenarioB [js "requests"; js "sklearn"]);
    reflexivity.
Defined.

Lemma join_ends : forall ls,
  ls <> [] ->
  Forall (fun l => truthy l = true) ls -> Forall noLF ls ->
  exists init c, join LF ls = init ++ [c] /\ c <> LF.
Proof.
  induction ls as [|l ls IH]; intros Hne T L; [congruence|].
  inversion T; inversion L; subst. destruct ls as [|l' ls'].
  - simpl. destruct (exists_last (l := l)) as [init [c E]].
    { destruct l; [discriminate|discriminate]. }
    exists init, c. split; auto. intros ->. apply H5. rewrite E.
    apply in_or_app. right. now left.
  - destruct IH as [init [c [E Hc]]]; auto; [discriminate|].
    exists (l ++ LF :: init), c. split; auto.
    change (join LF (l :: l' :: ls')) with (l ++ LF :: join LF (l' :: ls')).
    rewrite E, <- app_assoc. reflexivity.
Qed.

(** X9.  What a successful write puts in the file is exactly its
    non-empty lines joined by single line feeds: the content is not
    empty, none of its lines is the empty string, and its last code unit
    is not a line feed.  (A line of white space is not empty: it is kept
    like any other.) *)
Theorem X9_written_content_shape : forall projectPath w newPackages,
  fst (updateRequirementsTxt projectPath w) = Updated newPackages ->
  exists data,
    requirementsTxt (snd (updateRequirementsTxt projectPath w))
      = Readable data /\
    data = join LF (nonEmptyLines data) /\
    split LF data = nonEmptyLines data /\
    exists init c, data = init ++ [c] /\ c <> LF.
Proof.
  intros projectPath w newPackages H.
  destruct (written_content projectPath w newPackages H) as [imp [S [N E]]].
  destruct (updated_has_new_packages projectPath w newPackages H) as [Hne _].
  pose proof (updated_reads_back _ _ _ _ (requirementsTxt w) S) as B.
  cbv zeta in B. rewrite <- N in B.
  set (U := updatedPackagesOf (existingPackagesOf (requirementsTxt w))
              newPackages) in *.
  assert (Hu : U <> []).
  { destruct newPackages as [|n ns]; [congruence|]. intros Z.
    assert (Hin : In n U) by (apply updatedPackagesOf_In; right; now left).
    rewrite Z in Hin. destruct Hin. }
  assert (T : Forall (fun l => truthy l = true) U)
    by (rewrite <- B; apply nonEmptyLines_truthy).
  assert (L : Forall noLF U) by (rewrite <- B; apply nonEmptyLines_noLF).
  exists (join LF U). split; [exact E|]. rewrite B.
  split; [reflexivity|]. split; [now apply split_join|].
  now apply join_ends.
Qed.

Lemma X9_written_content_shape_witness :
  exists data,
    requirementsTxt (snd (updateRequirementsTxt root scenarioC))
      = Readable data /\
    data = join LF (nonEmptyLines data) /\
    split LF data = nonEmptyLines data /\
    exists init c, data = init ++ [c] /\ c <> LF.
Proof.
  apply (X9_written_content_shape root scenarioC [js "numpy"; js "requests"]).
  reflexivity.
Defined.

(** ** The configuration cache *)

(** X10.  The first call of [getProjectConfig] decides for all later
    ones: a second call, for any project path, answers with the same
    configuration and changes nothing.  Loading itself is repeatable: the
    default that [loadProjectConfig] writes when no file exists is what a
    second load reads back. *)
Theorem X10_first_configuration_wins : forall p1 p2 w,
  getProjectConfig p2 (snd (getProjectConfig p1 w))
    = (fst (getProjectConfig p1 w), snd (getProjectConfig p1 w)) /\
  loadProjectConfig p1 (snd (loadProjectConfig p1 w))
    = (fst (loadProjectConfig p1 w), snd (loadProjectConfig p1 w)).
Proof.
  intros p1 p2 w. split.
  - unfold getProjectConfig at 2 3 4.
    destruct (globalProjectConfig w) as [c|] eqn:G.
    + cbn [fst snd]. unfold getProjectConfig. now rewrite G.
    + unfold bind, loadProjectConfig.
      destruct (lookupConfig (getConfigFilePath w p1) (configFiles w));
        reflexivity.
  - unfold loadProjectConfig at 2 3 4.
    destruct (lookupConfig (getConfigFilePath w p1) (configFiles w))
      as [c|] eqn:L; cbn [fst snd].
    + unfold loadProjectConfig. now rewrite L.
    + unfold loadProjectConfig, lookupConfig. simpl.
      now rewrite jseqb_refl.
Qed.

(** ** The manifest pattern *)

Lemma takeWhile_dropWhile : forall p s, takeWhile p s ++ dropWhile p s = s.
Proof.
  intros p. induction s as [|c s IH]; simpl; auto.
  destruct (p c); simpl; [now rewrite IH|reflexivity].
Qed.

Lemma takeWhile_forallb : forall p s, forallb p (takeWhile p s) = true.
Proof.
  intros p. induction s as [|c s IH]; simpl; auto.
  destruct (p c) eqn:E; simpl; [now rewrite E|reflexivity].
Qed.

Lemma takeWhile_app_stop : forall p n c x,
  forallb p n = true -> p c = false ->
  takeWhile p (n ++ c :: x) = n /\ dropWhile p (n ++ c :: x) = c :: x.
Proof.
  intros p. induction n as [|a n IH]; intros c x H Hc; simpl.
  - now rewrite Hc.
  - simpl in H. apply andb_true_iff in H. destruct H as [Ha Hn].
    rewrite Ha. destruct (IH c x Hn Hc) as [-> ->]. auto.
Qed.

Lemma stripPrefix_Some : forall lit s r,
  stripPrefix lit s = Some r -> s = lit ++ r.
Proof.
  induction lit as [|x lit IH]; intros s r H; simpl in *.
  - congruence.
  - destruct s as [|c s]; [discriminate|].
    destruct (N.eqb_spec x c); [|discriminate].
    subst c. f_equal. now apply IH.
Qed.

(** X11.  The manifest pattern of the earlier variant loses nothing: a
    line it matches is exactly the captured name followed by the captured
    version, the name is a well-formed package name and the version is
    empty or [==] followed by at least one of the allowed characters; and
    every such name, alone or followed by such a version, is matched with
    exactly those two parts. *)
Theorem X11_manifest_pattern_is_lossless :
  (forall line packageName version,
     matchRequirement line = Some (packageName, version) ->
     line = packageName ++ version /\
     nameRegex packageName = true /\
     (version = [] \/
      exists v, version = EQUALS :: EQUALS :: v /\ v <> [] /\
                forallb isVersionChar v = true)) /\
  (forall packageName v,
     nameRegex packageName = true ->
     v <> [] -> forallb isVersionChar v = true ->
     matchRequirement (packageName ++ EQUALS :: EQUALS :: v)
       = Some (packageName, EQUALS :: EQUALS :: v)).
Proof.
  split.
  - intros line n v H. unfold matchRequirement in H.
    pose proof (takeWhile_dropWhile isNameChar line) as A.
    pose proof (takeWhile_forallb isNameChar line) as F.
    destruct (takeWhile isNameChar line) as [|a t] eqn:T; [discriminate|].
    destruct (dropWhile isNameChar line) as [|b rest] eqn:D.
    + injection H as <- <-. split; [now rewrite <- A|].
      split; [exact F|]. now left.
    + destruct (stripPrefix [EQUALS; EQUALS] (b :: rest)) as [ver|] eqn:P;
        [|discriminate].
      destruct (truthy ver && forallb isVersionChar ver) eqn:V;
        [|discriminate].
      injection H as <- <-. apply andb_true_iff in V. destruct V as [V1 V2].
      apply stripPrefix_Some in P. split; [now rewrite <- A, P|].
      split; [exact F|]. right. exists ver. split; auto. split; auto.
      intros ->. discriminate.
  - intros n v Hn Hv Fv. unfold nameRegex in Hn.
    apply andb_true_iff in Hn. destruct Hn as [Tn Fn].
    unfold matchRequirement.
    destruct (takeWhile_app_stop isNameChar n EQUALS (EQUALS :: v) Fn eq_refl)
      as [-> ->].
    destruct n as [|a n]; [discriminate|].
    simpl. rewrite Fv. destruct v; [congruence|reflexivity].
Qed.

Lemma X11_manifest_pattern_is_lossless_witness :
  matchRequirement (js "numpy" ++ EQUALS :: EQUALS :: js "1.21.0")
    = Some (js "numpy", EQUALS :: EQUALS :: js "1.21.0").
Proof.
  apply (proj2 X11_manifest_pattern_is_lossless (js "numpy") (js "1.21.0")).
  - reflexivity.
  - discriminate.
  - reflexivity.
Defined.

Lemma matchRequirement_Some_name : forall line packageName version,
  matchRequirement line = Some (packageName, version) ->
  nameRegex packageName = true.
Proof.
  intros line k v H. unfold matchRequirement in H.
  pose proof (takeWhile_forallb isNameChar line) as F.
  destruct (takeWhile isNameChar line) as [|a t]; [discriminate|].
  destruct (dropWhile isNameChar line) as [|b rest].
  - injection H as <- _. exact F.
  - destruct (stripPrefix [EQUALS; EQUALS] (b :: rest)) as [ver|];
      [|discriminate].
    destruct (truthy ver && forallb isVersionChar ver); [|discriminate].
    injection H as <- _. exact F.
Qed.

(** X17.  The reader of the earlier variant ignores every line its
    pattern does not match: reading goes on (it is a total function of the
    content), the line is not a key of the parsed manifest, and each key
    the manifest has comes from a line that matches, with that key as the
    captured name. *)
Theorem X17_earlier_reader_ignores_unmatched_lines :
  (forall content line,
     matchRequirement line = None ->
     mapHas (readManifest content) line = false) /\
  (forall content packageName,
     mapHas (readManifest content) packageName = true <->
     exists line version,
       In line (split LF content) /\
       matchRequirement line = Some (packageName, version)).
Proof.
  split; [|exact readManifest_has].
  intros content line H.
  destruct (mapHas (readManifest content) line) eqn:E; [|reflexivity].
  apply readManifest_has in E. destruct E as [l [v [_ M]]].
  apply matchRequirement_Some_name, matchRequirement_name in M.
  congruence.
Qed.

Lemma X17_earlier_reader_ignores_unmatched_lines_witness :
  mapHas (readManifest (join LF [js "# pinned by hand"; js "numpy"; []]))
    (js "# pinned by hand") = false.
Proof.
  apply (proj1 X17_earlier_reader_ignores_unmatched_lines).
  reflexivity.
Defined.

(** ** The merge of the earlier variant *)

Lemma split_app_LF_any : forall a b,
  split LF (a ++ LF :: b) = split LF a ++ split LF b.
Proof.
  induction a as [|c a IH]; intros b.
  - reflexivity.
  - change ((c :: a) ++ LF :: b) with (c :: (a ++ LF :: b)).
    cbn [split]. rewrite IH.
    destruct (N.eqb c LF); [reflexivity|].
    pose proof (split_nonempty LF a) as Hne.
    destruct (split LF a) as [|l ls]; [congruence|reflexivity].
Qed.

Lemma split_appended_lines : forall ps,
  Forall noLF ps ->
  split LF (List.concat (map (fun pkg => pkg ++ [LF]) ps)) = ps ++ [[]].
Proof.
  induction ps as [|p ps IH]; intros H; [reflexivity|].
  inversion H; subst. simpl. rewrite <- app_assoc. simpl.
  rewrite split_app_LF by assumption. now rewrite IH.
Qed.

Lemma readManifest_appended : forall content ps,
  content = [] \/ (exists c0, content = c0 ++ [LF]) ->
  Forall (fun p => nameRegex p = true) ps ->
  readManifest (content ++ List.concat (map (fun pkg => pkg ++ [LF]) ps))
  = fold_left (fun m p => mapSet p [] m) ps (readManifest content).
Proof.
  intros content ps Hc Hp.
  assert (L : Forall noLF ps).
  { apply Forall_forall. intros p Hin. rewrite Forall_forall in Hp.
    apply nameRegex_noLF. auto. }
  assert (F : forall m,
    fold_left
      (fun existingPackages line =>
         match matchRequirement line with
         | Some (packageName, version) =>
             mapSet packageName version existingPackages
         | None => existingPackages
         end) (ps ++ [[]]) m
    = fold_left (fun m p => mapSet p [] m) ps m).
  { clear L. induction ps as [|p ps IH]; intros m; [reflexivity|].
    inversion Hp; subst. simpl.
    rewrite (matchRequirement_name p) by assumption. now apply IH. }
  unfold readManifest. destruct Hc as [->|[c0 ->]].
  - simpl app. rewrite split_appended_lines by exact L.
    rewrite F. reflexivity.
  - rewrite <- app_assoc. simpl app.
    rewrite !split_app_LF_any, split_appended_lines by exact L.
    rewrite fold_left_app, F, fold_left_app. reflexivity.
Qed.

Lemma mapHas_fold_mapSet : forall ps m k,
  mapHas (fold_left (fun m p => mapSet p [] m) ps m) k
  = mapHas m k || includes ps k.
Proof.
  induction ps as [|p ps IH]; intros m k; simpl.
  - now rewrite orb_false_r.
  - rewrite IH, mapHas_mapSet.
    destruct (jseqb k p), (mapHas m k); reflexivity.
Qed.

Lemma mapGet_mapSet_other : forall m p v k,
  jseqb k p = false -> mapGet (mapSet p v m) k = mapGet m k.
Proof.
  unfold mapGet. induction m as [|[k1 v1] m IH]; intros p v k H; simpl.
  - now rewrite H.
  - destruct (jseqb p k1) eqn:E; simpl.
    + apply jseqb_eq in E. subst k1. now rewrite H.
    + destruct (jseqb k k1); [reflexivity|]. now apply IH.
Qed.

Lemma mapGet_fold_mapSet : forall ps m k,
  includes ps k = false ->
  mapGet (fold_left (fun m p => mapSet p [] m) ps m) k = mapGet m k.
Proof.
  induction ps as [|p ps IH]; intros m k H; simpl in *; auto.
  apply orb_false_iff in H. destruct H as [H1 H2].
  rewrite IH by exact H2. now apply mapGet_mapSet_other.
Qed.

Lemma mapGet_mapHas : forall m k v, mapGet m k = Some v -> mapHas m k = true.
Proof.
  unfold mapGet, mapHas. induction m as [|[k1 v1] m IH]; intros k v H;
    simpl in *; [discriminate|].
  destruct (jseqb k k1); [reflexivity|]. simpl. eapply IH. exact H.
Qed.

(** X12.  The merge of the earlier variant (append the packages the
    parsed manifest lacks, one line each) on a manifest that is empty or
    ends with a line feed, given well-formed package names: afterwards
    every given package is a key of the manifest, every key that was there
    keeps its version, and merging the same packages again appends
    nothing. *)
Theorem X12_earlier_merge : forall content importedPackages,
  content = [] \/ (exists c0, content = c0 ++ [LF]) ->
  Forall (fun p => nameRegex p = true) importedPackages ->
  let merged := appendMissing content importedPackages in
  (forall p, In p importedPackages ->
             mapHas (readManifest merged) p = true) /\
  (forall k v, mapGet (readManifest content) k = Some v ->
               mapGet (readManifest merged) k = Some v) /\
  appendMissing merged importedPackages = merged.
Proof.
  intros content imported Hc Hp merged.
  set (missing := filter (fun pkg => negb (mapHas (readManifest content) pkg))
                    imported).
  assert (Hm : Forall (fun p => nameRegex p = true) missing).
  { apply Forall_forall. intros p Hin. apply filter_In in Hin.
    rewrite Forall_forall in Hp. now apply Hp. }
  assert (R : readManifest merged
              = fold_left (fun m p => mapSet p [] m) missing
                  (readManifest content)).
  { subst merged. unfold appendMissing. fold missing.
    now apply readManifest_appended. }
  assert (K : forall p, In p imported -> mapHas (readManifest merged) p = true).
  { intros p Hin. rewrite R, mapHas_fold_mapSet.
    destruct (mapHas (readManifest content) p) eqn:E; [reflexivity|].
    simpl. apply includes_In. apply filter_In. split; auto.
    now rewrite E. }
  split; [exact K|]. split.
  - intros k v G. rewrite R, mapGet_fold_mapSet; [exact G|].
    apply includes_not_In. intros Hin. apply filter_In in Hin.
    destruct Hin as [_ Hin]. apply mapGet_mapHas in G.
    rewrite G in Hin. discriminate.
  - unfold appendMissing at 1.
    assert (Z : forall l,
              (forall p, In p l -> mapHas (readManifest merged) p = true) ->
              filter (fun pkg => negb (mapHas (readManifest merged) pkg)) l
              = []).
    { induction l as [|p l IH]; intros H; simpl; auto.
      rewrite (H p) by now left. simpl. apply IH.
      intros q Hq. apply H. now right. }
    rewrite (Z imported K). simpl. apply app_nil_r.
Qed.

Lemma X12_earlier_merge_witness :
  let merged :=
    appendMissing (js "numpy==1.21.0" ++ [LF]) [js "numpy"; js "requests"] in
  (forall p, In p [js "numpy"; js "requests"] ->
             mapHas (readManifest merged) p = true) /\
  (forall k v, mapGet (readManifest (js "numpy==1.21.0" ++ [LF])) k = Some v ->
               mapGet (readManifest merged) k = Some v) /\
  appendMissing merged [js "numpy"; js "requests"] = merged.
Proof.
  apply (X12_earlier_merge (js "numpy==1.21.0" ++ [LF])
           [js "numpy"; js "requests"]).
  - right. exists (js "numpy==1.21.0"). reflexivity.
  - repeat constructor.
Defined.

(** ** Lines with several modules *)

Lemma dropWhile_all : forall p lead s,
  forallb p lead = true -> dropWhile p (lead ++ s) = dropWhile p s.
Proof.
  intros p. induction lead as [|c lead IH]; intros s H; simpl in *; auto.
  apply andb_true_iff in H. destruct H as [Hc Hl]. rewrite Hc. now apply IH.
Qed.

(** X13.  Of a comma-separated [import] statement only the first module
    is seen: whatever follows the comma, the pattern captures the path
    before it, so [import os, requests] never yields [requests]. *)
Theorem X13_only_the_first_of_several_modules : forall lead first rest,
  forallb isSpace lead = true ->
  first <> [] -> forallb isTargetChar first = true ->
  matchedPath (lead ++ js "import " ++ first ++ COMMA :: rest) = Some first.
Proof.
  intros lead first rest Hl Hne Hf.
  unfold matchedPath, matchImport.
  rewrite dropWhile_all by exact Hl.
  change (js "import " ++ first ++ COMMA :: rest)
    with (js "import" ++ 32%N :: first ++ COMMA :: rest).
  assert (P : forall x, stripPrefix (js "import") (js "import" ++ x) = Some x)
    by reflexivity.
  assert (D : dropWhile isSpace (js "import" ++ 32%N :: first ++ COMMA :: rest)
              = js "import" ++ 32%N :: first ++ COMMA :: rest) by reflexivity.
  rewrite D, P. unfold spaces1. cbn [isSpace].
  change (isSpace 32) with true. cbv iota.
  destruct first as [|a first]; [congruence|].
  simpl in Hf. apply andb_true_iff in Hf. destruct Hf as [Ha Hf'].
  assert (Sa : isSpace a = false).
  { unfold isTargetChar in Ha. apply andb_true_iff in Ha.
    destruct Ha as [Ha _]. now apply negb_true_iff in Ha. }
  change ((a :: first) ++ COMMA :: rest) with (a :: (first ++ COMMA :: rest)).
  cbn [dropWhile]. rewrite Sa. unfold target1. cbn [takeWhile].
  rewrite Ha.
  destruct (takeWhile_app_stop isTargetChar first COMMA rest Hf' eq_refl)
    as [-> _].
  reflexivity.
Qed.

Lemma X13_only_the_first_of_several_modules_witness :
  matchedPath ([] ++ js "import " ++ js "os" ++ COMMA :: js " requests")
    = Some (js "os").
Proof.
  apply (X13_only_the_first_of_several_modules [] (js "os") (js " requests"));
    [reflexivity | discriminate | reflexivity].
Defined.

(** ** Creating the project structure *)

Lemma preserves_done : forall P, preserves P done.
Proof. intros P f H. exact H. Qed.

Lemma preserves_andThen : forall P a b,
  preserves P a -> preserves P b -> preserves P (andThen a b).
Proof.
  intros P a b Ha Hb f H. unfold andThen.
  specialize (Ha f H). destruct (a f) as [[u|p] f1]; simpl in *; auto.
Qed.

Lemma preserves_forEach : forall A P (g : A -> steps) l,
  (forall a, In a l -> preserves P (g a)) -> preserves P (forEach g l).
Proof.
  intros A P g. induction l as [|a l IH]; intros H; simpl.
  - apply preserves_done.
  - apply preserves_andThen.
    + apply H. now left.
    + apply IH. intros b Hb. apply H. now right.
Qed.

Lemma validateName_file_chars : forall name c,
  validateName name FileName = true -> In c name -> isFileNameChar c = true.
Proof.
  intros name c H Hc. simpl in H. apply andb_true_iff in H.
  destruct H as [_ H]. rewrite forallb_forall in H. auto.
Qed.

Lemma validateName_no_separator : forall name,
  validateName name FileName = true -> ~ In SLASH name.
Proof.
  intros name H Hin. pose proof (validateName_file_chars _ _ H Hin) as E.
  discriminate E.
Qed.

Lemma validateName_directory_file : forall name,
  validateName name DirectoryName = true -> validateName name FileName = true.
Proof.
  intros name H. simpl in *. apply andb_true_iff in H. destruct H as [T F].
  rewrite T. simpl. rewrite forallb_forall in *. intros c Hc.
  specialize (F c Hc). unfold isFileNameChar, isNameChar in *.
  now rewrite F.
Qed.

Lemma validateName_directory_not_requirements : forall name,
  validateName name DirectoryName = true -> jseqb name requirementsName = false.
Proof.
  intros name H. destruct (jseqb name requirementsName) eqn:E; auto.
  apply jseqb_eq in E. subst name. discriminate H.
Qed.


Lemma grownFrom_refl : forall config f, grownFrom config f f.
Proof.
  intros config f. repeat split; auto. exists []. split.
  - now rewrite app_nil_r.
  - constructor.
Qed.

Lemma grownFrom_exists : forall config f0 f name,
  grownFrom config f0 f ->
  existsSync f0 name = true -> existsSync f name = true.
Proof.
  intros config f0 f name [_ [_ [[added [E _]] M]]] H.
  unfold existsSync in *. destruct (jseqb name requirementsName).
  - destruct M as [M|[M _]]; [now rewrite M|]. rewrite M in H. discriminate.
  - rewrite E, existsb_app.
    apply orb_true_iff in H. destruct H as [H|H]; [now rewrite H|].
    rewrite H. simpl. now rewrite orb_true_r.
Qed.

Lemma grownFrom_missing : forall config f0 f name,
  grownFrom config f0 f ->
  existsSync f name = false -> existsSync f0 name = false.
Proof.
  intros config f0 f name G H.
  destruct (existsSync f0 name) eqn:E; auto.
  rewrite (grownFrom_exists _ _ _ _ G E) in H. discriminate.
Qed.

Lemma grownFrom_add : forall config f0 f e,
  grownFrom config f0 f -> createdFrom config f0 e ->
  grownFrom config f0 (addEntry e f).
Proof.
  intros config f0 f e [R [A [[added [E F]] M]]] C.
  split; [exact R|]. split; [exact A|]. split; [|exact M].
  exists (added ++ [e]). simpl. split.
  - now rewrite E, app_assoc.
  - apply Forall_app. split; auto.
Qed.

Lemma createDirectory_grown : forall config f0 dir,
  validateName dir DirectoryName = true ->
  In dir (directories config) ->
  preserves (grownFrom config f0) (createDirectory dir).
Proof.
  intros config f0 dir V Hin f G. unfold createDirectory.
  destruct (existsSync f dir) eqn:X; [exact G|].
  destruct (includes (refused f) dir); [exact G|].
  rewrite (validateName_directory_not_requirements _ V). simpl.
  apply grownFrom_add; auto.
  split; [simpl; eapply grownFrom_missing; eauto|].
  split; [simpl; now apply validateName_directory_file|].
  split; [simpl; now apply validateName_no_separator,
                           validateName_directory_file|].
  left. exists dir. auto.
Qed.

Lemma createFile_grown : forall config f0 name content,
  validateName name FileName = true ->
  In (name, content) (files config) ->
  preserves (grownFrom config f0) (createFile name content).
Proof.
  intros config f0 name content V Hin f G. unfold createFile.
  destruct (existsSync f name) eqn:X; [exact G|].
  destruct (includes (refused f) name); [exact G|].
  destruct (jseqb name requirementsName) eqn:Q; simpl.
  - apply jseqb_eq in Q. subst name.
    destruct G as [R [A [Ad M]]].
    split; [exact R|]. split; [exact A|]. split; [exact Ad|].
    right. simpl.
    assert (Hm : manifest f = Missing).
    { unfold existsSync in X. rewrite jseqb_refl in X.
      destruct (manifest f); [reflexivity|discriminate|discriminate]. }
    split.
    + destruct M as [M|[M _]]; congruence.
    + exists content. auto.
  - apply grownFrom_add; auto.
    split; [simpl; eapply grownFrom_missing; eauto|].
    split; [exact V|].
    split; [simpl; now apply validateName_no_separator|].
    right. exists name, content. auto.
Qed.

Lemma loops_grown : forall config f,
  grownFrom config f
    (snd (andThen
            (forEach
               (fun dir =>
                  if validateName dir DirectoryName
                  then createDirectory dir else done)
               (directories config))
            (forEach
               (fun fc =>
                  if validateName (fst fc) FileName
                  then createFile (fst fc) (snd fc) else done)
               (files config)) f)).
Proof.
  intros config f.
  apply (preserves_andThen (grownFrom config f)); [| |apply grownFrom_refl].
  - apply preserves_forEach. intros dir Hin.
    destruct (validateName dir DirectoryName) eqn:V;
      [exact (createDirectory_grown config f dir V Hin)
      | apply preserves_done].
  - apply preserves_forEach. intros [name content] Hin. cbn [fst snd].
    destruct (validateName name FileName) eqn:V;
      [exact (createFile_grown config f name content V Hin)
      | apply preserves_done].
Qed.

Lemma andThen_assoc : forall a b c f,
  andThen a (andThen b c) f = andThen (andThen a b) c f.
Proof.
  intros a b c f. unfold andThen.
  destruct (a f) as [[u|p] f1]; auto.
Qed.

(** X14.  Once the project directory exists and [getProjectConfig] has
    returned the configuration, the rest of
    [createPythonProjectStructure], its two loops and the append, only
    adds.  Whatever the configuration and whether or not the run
    completes: what was in the directory stays as it is, in place; every
    entry added is one the configuration asks for, under a name that
    passes [validateName], has no path separator and was not taken (so a
    configured file such as [src/__init__.py] is never created); and a
    manifest that was there is unchanged or has the three default
    requirements appended. *)
Theorem X14_structure_creation_only_adds : forall config f,
  let f' := snd (createStructure config f) in
  (exists added,
     entries f' = entries f ++ added /\
     Forall (createdFrom config f) added) /\
  match manifest f with
  | Readable data =>
      manifest f' = Readable data \/
      manifest f' = Readable (data ++ additionalRequirements)
  | Unreadable => manifest f' = Unreadable
  | Missing =>
      manifest f' = Missing \/
      exists content,
        In (requirementsName, content) (files config) /\
        (manifest f' = Readable content \/
         manifest f' = Readable (content ++ additionalRequirements))
  end.
Proof.
  intros config f f'.
  pose proof (loops_grown config f) as G.
  assert (E : f' = snd (andThen
                     (andThen
                        (forEach
                           (fun dir =>
                              if validateName dir DirectoryName
                              then createDirectory dir else done)
                           (directories config))
                        (forEach
                           (fun fc =>
                              if validateName (fst fc) FileName
                              then createFile (fst fc) (snd fc) else done)
                           (files config)))
                     appendRequirements f)).
  { subst f'. unfold createStructure.
    now rewrite andThen_assoc. }
  clearbody f'. unfold andThen at 1 in E.
  destruct (andThen _ _ f) as [[u|p] f2]; cbn [snd] in G;
    destruct G as [_ [A [Ad M]]].
  - unfold appendRequirements in E.
    destruct (manifest f2) as [|data2|] eqn:M2.
    + cbn [snd] in E. subst f'. split; [exact Ad|]. rewrite M2.
      destruct M as [M|[M [c [_ Mc]]]]; [|congruence].
      rewrite <- M. now left.
    + destruct (appendable f2); cbn [snd] in E; subst f';
        (split; [exact Ad|]).
      * simpl. destruct M as [M|[M [c [Hc Mc]]]].
        -- rewrite <- M. now right.
        -- rewrite M. right. exists c. split; [exact Hc | right; congruence].
      * rewrite M2. destruct M as [M|[M [c [Hc Mc]]]].
        -- rewrite <- M. now left.
        -- rewrite M. right. exists c. split; [exact Hc | left; congruence].
    + destruct (appendable f2); cbn [snd] in E; subst f';
        (split; [exact Ad|]); rewrite M2;
        (destruct M as [M|[M [c [_ Mc]]]]; [now rewrite <- M|congruence]).
  - cbn [snd] in E. subst f'. split; [exact Ad|].
    destruct M as [M|[M [c [Hc Mc]]]].
    + rewrite M. destruct (manifest f); auto.
    + rewrite M. right. exists c. auto.
Qed.













(** ** The scan of the earlier variants *)

Lemma matchAll_skip : forall s k, matchAll k s = matchAll 0 (skipn k s).
Proof.
  induction s as [|c t IH]; intros k.
  - now destruct k.
  - destruct k as [|k]; [reflexivity|]. simpl skipn. rewrite <- IH.
    reflexivity.
Qed.

Lemma takeWhile_target_not_space : forall a t,
  isTargetChar a = true -> takeWhile isSpace (a :: t) = [] /\
                           dropWhile isSpace (a :: t) = a :: t.
Proof.
  intros a t H. unfold isTargetChar in H. apply andb_true_iff in H.
  destruct H as [H _]. apply negb_true_iff in H. simpl. now rewrite H.
Qed.

Lemma keywordMatch_statement : forall kw path rest,
  path <> [] -> forallb isTargetChar path = true ->
  (rest = [] \/ exists c t, rest = c :: t /\ isTargetChar c = false) ->
  keywordMatch kw (kw ++ 32%N :: path ++ rest)
    = Some (List.length kw + 1 + List.length path).
Proof.
  intros kw path rest Hne Hp Hr. unfold keywordMatch.
  assert (P : stripPrefix kw (kw ++ 32%N :: path ++ rest)
              = Some (32%N :: path ++ rest)).
  { induction kw as [|x kw IH]; simpl; [reflexivity|].
    now rewrite N.eqb_refl. }
  rewrite P. destruct path as [|a path]; [congruence|].
  simpl in Hp. apply andb_true_iff in Hp. destruct Hp as [Ha Hp].
  change (32%N :: (a :: path) ++ rest) with (32%N :: a :: (path ++ rest)).
  assert (Sa : isSpace a = false).
  { unfold isTargetChar in Ha. apply andb_true_iff in Ha.
    destruct Ha as [Ha _]. now apply negb_true_iff in Ha. }
  cbn [takeWhile dropWhile]. change (isSpace 32) with true. cbv iota.
  rewrite Sa. cbn [takeWhile]. rewrite Ha.
  assert (G : takeWhile isTargetChar (path ++ rest) = path).
  { destruct Hr as [->|[c [t [-> Hc]]]].
    - rewrite app_nil_r. now apply takeWhile_all.
    - now apply takeWhile_app_stop. }
  rewrite G. reflexivity.
Qed.

Lemma statementPattern_statement : forall kw path,
  path <> [] -> forallb isTargetChar path = true ->
  statementPattern kw (kw ++ 32%N :: path) = Some (path, []).
Proof.
  intros kw path Hne Hp. unfold statementPattern.
  assert (P : stripPrefix kw (kw ++ 32%N :: path) = Some (32%N :: path)).
  { induction kw as [|x kw IH]; simpl; [reflexivity|].
    now rewrite N.eqb_refl. }
  rewrite P. unfold spaces1. change (isSpace 32) with true. cbv iota.
  destruct path as [|a path]; [congruence|].
  pose proof Hp as Hp'. simpl in Hp'. apply andb_true_iff in Hp'.
  destruct Hp' as [Ha _].
  destruct (takeWhile_target_not_space a path Ha) as [_ D]. rewrite D.
  unfold target1. destruct (takeWhile_all _ _ Hp) as [-> ->]. reflexivity.
Qed.

Lemma matchAll_no_match : forall c t,
  statementAt (c :: t) = None -> matchAll 0 (c :: t) = matchAll 0 t.
Proof. intros c t H. cbn [matchAll]. now rewrite H. Qed.

Lemma matchAll_match : forall c t n,
  statementAt (c :: t) = Some n ->
  matchAll 0 (c :: t) = firstn n (c :: t) :: matchAll 0 (skipn (n - 1) t).
Proof.
  intros c t n H. cbn [matchAll]. rewrite H. now rewrite matchAll_skip.
Qed.

Lemma matchAll_import_at_end : forall B,
  B <> [] -> forallb isTargetChar B = true ->
  matchAll 0 (js " import " ++ B) = [js "import " ++ B].
Proof.
  intros B NB HB.
  refine (eq_trans (matchAll_no_match 32%N (js "import" ++ 32%N :: B)
                      eq_refl) _).
  assert (S2 : statementAt (js "import" ++ 32%N :: B)
               = Some (6 + 1 + List.length B)).
  { unfold statementAt. rewrite <- (app_nil_r B) at 1.
    rewrite (keywordMatch_statement (js "import") B []); auto. }
  refine (eq_trans (matchAll_match 105%N (js "mport" ++ 32%N :: B) _ S2) _).
  f_equal.
  - change (105%N :: js "mport" ++ 32%N :: B) with (js "import " ++ B).
    replace (6 + 1 + List.length B) with (List.length (js "import " ++ B))
      by (rewrite length_app; reflexivity).
    apply firstn_all.
  - replace (6 + 1 + List.length B - 1)
      with (List.length (js "mport" ++ 32%N :: B))
      by (rewrite length_app; simpl; lia).
    now rewrite skipn_all.
Qed.

(** X16.  The scan of the earlier variants takes the imported name of a
    [from ... import ...] statement for a package: on
    [from A import B] its search matches [from A] and then [import B],
    and both first segments are reported. *)
Theorem X16_earlier_scan_reports_imported_names : forall A B,
  forallb isTargetChar A = true -> forallb isTargetChar B = true ->
  truthy (firstSegment A) = true -> truthy (firstSegment B) = true ->
  earlierScanContent [] (js "from " ++ A ++ js " import " ++ B)
  = setAdd (firstSegment B) [firstSegment A].
Proof.
  intros A B HA HB TA TB.
  assert (NA : A <> []) by (intros ->; discriminate).
  assert (NB : B <> []) by (intros ->; discriminate).
  assert (M : matchAll 0 (js "from " ++ A ++ js " import " ++ B)
              = [js "from " ++ A; js "import " ++ B]).
  { assert (S1 : statementAt (js "from" ++ 32%N :: A ++ js " import " ++ B)
                 = Some (4 + 1 + List.length A)).
    { unfold statementAt.
      change (keywordMatch (js "import") _) with (@None nat).
      apply (keywordMatch_statement (js "from") A (js " import " ++ B)); auto.
      right. exists 32%N, (js "import " ++ B). split; reflexivity. }
    refine (eq_trans (matchAll_match 102%N
                        (js "rom " ++ A ++ js " import " ++ B) _ S1) _).
    f_equal.
    - change (102%N :: js "rom " ++ A ++ js " import " ++ B)
        with (js "from " ++ A ++ js " import " ++ B).
      replace (4 + 1 + List.length A)
        with (List.length (js "from " ++ A))
        by (rewrite length_app; reflexivity).
      rewrite app_assoc, firstn_app, firstn_all.
      match goal with
      | |- context [?n - ?n] => replace (n - n) with 0 by lia
      end.
      cbn [firstn]. now rewrite app_nil_r.
    - replace (4 + 1 + List.length A - 1)
        with (List.length (js "rom " ++ A))
        by (rewrite length_app; simpl; lia).
      rewrite app_assoc, skipn_app, skipn_all.
      match goal with
      | |- context [?n - ?n] => replace (n - n) with 0 by lia
      end.
      cbn [skipn app]. now apply matchAll_import_at_end. }
  assert (RA : replaceStatement (js "from " ++ A) = A).
  { change (js "from " ++ A) with (102%N :: (js "rom" ++ 32%N :: A)).
    cbn [replaceStatement].
    change (statementPattern (js "import") (102%N :: js "rom" ++ 32%N :: A))
      with (@None (jsstring * jsstring)).
    change (102%N :: js "rom" ++ 32%N :: A) with (js "from" ++ 32%N :: A).
    rewrite statementPattern_statement by assumption. apply app_nil_r. }
  assert (RB : replaceStatement (js "import " ++ B) = B).
  { change (js "import " ++ B) with (105%N :: (js "mport" ++ 32%N :: B)).
    cbn [replaceStatement].
    change (105%N :: js "mport" ++ 32%N :: B) with (js "import" ++ 32%N :: B).
    rewrite statementPattern_statement by assumption. apply app_nil_r. }
  unfold earlierScanContent. rewrite M. cbn [fold_left].
  rewrite RA, RB, TA, TB. reflexivity.
Qed.

Lemma X16_earlier_scan_reports_imported_names_witness :
  earlierScanContent []
    (js "from " ++ js "sklearn.linear_model" ++ js " import "
       ++ js "LinearRegression")
  = setAdd (firstSegment (js "LinearRegression"))
      [firstSegment (js "sklearn.linear_model")].
Proof.
  apply (X16_earlier_scan_reports_imported_names
           (js "sklearn.linear_model") (js "LinearRegression"));
    reflexivity.
Defined.
